(** * PascoAI Crypto Lab: the PASCO1 token engine (src/lib/crypto.ts) and
      the per-device attempt lockout of the Crypto Lab page
      (src/pages/CryptoLab.tsx, [runDecrypt]).

    JavaScript strings are lists of UTF-16 code units ([list N]); byte
    arrays ([Uint8Array]) are lists of [byte].  The host primitives that
    the code calls (WebCrypto's PBKDF2, AES-GCM and SHA-256, TextEncoder /
    TextDecoder, JSON.stringify / JSON.parse) are the methods of the class
    [Host]; the base64 functions [btoa] / [atob], [String.prototype.trim],
    [split] and [startsWith] are written out. *)

From Stdlib Require Import ZArith NArith List String Ascii Bool Lia.
From Stdlib Require Strings.Byte DecimalN.
From stdpp Require Import gmap.
Import ListNotations.

Open Scope N_scope.
#[local] Set Warnings "-register-all".

(* ================================================================== *)
(** ** JavaScript strings *)

Abbreviation jsstr := (list N).

(** A string literal of the source, as code units. *)
Definition js (s : string) : jsstr :=
  map N_of_ascii (list_ascii_of_string s).

(** ECMAScript WhiteSpace and LineTerminator code units: what
    [String.prototype.trim] removes. *)
Definition is_js_space (c : N) : bool :=
  (c =? 9) || (c =? 10) || (c =? 11) || (c =? 12) || (c =? 13) ||
  (c =? 32) || (c =? 160) || (c =? 5760) ||
  ((8192 <=? c) && (c <=? 8202)) ||
  (c =? 8232) || (c =? 8233) || (c =? 8239) || (c =? 8287) ||
  (c =? 12288) || (c =? 65279).

Fixpoint trim_start (s : jsstr) : jsstr :=
  match s with
  | [] => []
  | c :: r => if is_js_space c then trim_start r else s
  end.

Definition trim_end (s : jsstr) : jsstr := rev (trim_start (rev s)).

(** [s.trim()] *)
Definition trim (s : jsstr) : jsstr := trim_end (trim_start s).

(** [s.startsWith(p)] *)
Fixpoint startsWith (s p : jsstr) : bool :=
  match p, s with
  | [], _ => true
  | c :: p', d :: s' => (c =? d) && startsWith s' p'
  | _ :: _, [] => false
  end.

(** [s.split(sep)] for a one-code-unit separator. *)
Fixpoint str_split (sep : N) (s : jsstr) : list jsstr :=
  match s with
  | [] => [[]]
  | c :: r =>
      if c =? sep then [] :: str_split sep r
      else match str_split sep r with
           | x :: xs => (c :: x) :: xs
           | [] => [[c]]
           end
  end.

(** [s.replace(/a/g, b)] for single code units. *)
Definition replace_all (a b : N) (s : jsstr) : jsstr :=
  map (fun c => if c =? a then b else c) s.

(** [s.replace(/=+$/g, "")] *)
Fixpoint drop_leading (a : N) (l : jsstr) : jsstr :=
  match l with
  | c :: r => if c =? a then drop_leading a r else l
  | [] => []
  end.

Definition strip_trailing_eq (s : jsstr) : jsstr := rev (drop_leading 61 (rev s)).

(* ================================================================== *)
(** ** Bytes *)

Abbreviation bytes := (list Byte.byte).

(** Storing a number into a [Uint8Array] slot (ToUint8). *)
Definition u8 (n : N) : Byte.byte :=
  match Byte.of_N (n mod 256) with Some b => b | None => Byte.x00 end.

(** [String.fromCharCode(bytes[i])] for every [i]: the binary string of
    [toB64Url]. *)
Definition binary_string (bs : bytes) : jsstr := map Byte.to_N bs.

(* ================================================================== *)
(** ** base64: the host's [btoa] and [atob] (forgiving-base64) *)

(** The standard alphabet [A-Za-z0-9+/]. *)
Definition b64_char (v : N) : N :=
  if v <? 26 then 65 + v
  else if v <? 52 then 97 + (v - 26)
  else if v <? 62 then 48 + (v - 52)
  else if v =? 62 then 43 else 47.

Definition b64_value (c : N) : option N :=
  if (65 <=? c) && (c <=? 90) then Some (c - 65)
  else if (97 <=? c) && (c <=? 122) then Some (c - 97 + 26)
  else if (48 <=? c) && (c <=? 57) then Some (c - 48 + 52)
  else if c =? 43 then Some 62
  else if c =? 47 then Some 63
  else None.

(** Three octets to four sextets; a final group of one or two octets
    gives two or three sextets. *)
Fixpoint b64_sextets (s : list N) : list N :=
  match s with
  | x :: y :: z :: r =>
      [x / 4; (x mod 4) * 16 + y / 16; (y mod 16) * 4 + z / 64; z mod 64]
        ++ b64_sextets r
  | [x; y] => [x / 4; (x mod 4) * 16 + y / 16; (y mod 16) * 4]
  | [x] => [x / 4; (x mod 4) * 16]
  | [] => []
  end.

Definition b64_padding (n : nat) : jsstr :=
  match (n mod 3)%nat with 1%nat => [61; 61] | 2%nat => [61] | _ => [] end.

(** [btoa(s)]: throws (here [None]) on a code unit above 255. *)
Definition btoa (s : jsstr) : option jsstr :=
  if forallb (fun c => c <? 256) s
  then Some (map b64_char (b64_sextets s) ++ b64_padding (length s))
  else None.

(** Four sextets to three octets; a final group of three or two sextets
    gives two or one octets, the leftover bits dropped. *)
Fixpoint b64_octets (vs : list N) : list N :=
  match vs with
  | a :: b :: c :: d :: r =>
      [a * 4 + b / 16; (b mod 16) * 16 + c / 4; (c mod 4) * 64 + d]
        ++ b64_octets r
  | [a; b; c] => [a * 4 + b / 16; (b mod 16) * 16 + c / 4]
  | [a; b] => [a * 4 + b / 16]
  | _ => []
  end.

Definition is_ascii_space (c : N) : bool :=
  (c =? 9) || (c =? 10) || (c =? 12) || (c =? 13) || (c =? 32).

(** Remove one or two trailing [=]. *)
Definition strip_padding (d : jsstr) : jsstr :=
  match rev d with
  | a :: b :: r => if (a =? 61) && (b =? 61) then rev r
                   else if a =? 61 then rev (b :: r) else d
  | [a] => if a =? 61 then [] else d
  | [] => []
  end.

Fixpoint b64_values (d : jsstr) : option (list N) :=
  match d with
  | [] => Some []
  | c :: r =>
      match b64_value c, b64_values r with
      | Some v, Some vs => Some (v :: vs)
      | _, _ => None
      end
  end.

(** [atob(s)]: the binary string, or [None] when it throws. *)
Definition atob (s : jsstr) : option jsstr :=
  let d := List.filter (fun c => negb (is_ascii_space c)) s in
  let d := if Nat.eqb (length d mod 4) 0 then strip_padding d else d in
  if Nat.eqb (length d mod 4) 1 then None
  else match b64_values d with
       | Some vs => Some (b64_octets vs)
       | None => None
       end.

(* ================================================================== *)
(** ** [toB64Url] / [fromB64Url] (crypto.ts) *)

(** [btoa] cannot throw on a binary string (lemma [btoa_binary_string]);
    the [None] branch is never taken. *)
Definition toB64Url (bs : bytes) : jsstr :=
  match btoa (binary_string bs) with
  | Some b64 => strip_trailing_eq (replace_all 47 95 (replace_all 43 45 b64))
  | None => []
  end.

(** ["===".slice((b64url.length + 3) % 4)] *)
Definition restore_padding (n : nat) : jsstr :=
  skipn ((n + 3) mod 4) [61; 61; 61].

Definition fromB64Url (b64url : jsstr) : option bytes :=
  let b64 := replace_all 95 47 (replace_all 45 43 b64url)
               ++ restore_padding (length b64url) in
  match atob b64 with
  | Some bin => Some (map u8 bin)
  | None => None
  end.

(* ================================================================== *)
(** ** JSON values and the host *)

(** A value produced by [JSON.parse]; an object lists its own
    properties, with distinct keys, in insertion order.  The numeric
    fields of a PASCO1 header are integers. *)
Inductive json : Type :=
| JNull
| JBool (b : bool)
| JNum (z : Z)
| JStr (s : jsstr)
| JArr (l : list json)
| JObj (fields : list (jsstr * json)).

(** The cryptographic work a run performs, in order. *)
Inductive cev : Type :=
| EvImportKey               (* crypto.subtle.importKey of the password *)
| EvDeriveKey (iterations : Z)  (* PBKDF2-SHA256 with this count *)
| EvEncrypt                 (* AES-GCM encrypt *)
| EvDecrypt                 (* AES-GCM decrypt *)
| EvDigest.                 (* SHA-256 *)

(** The errors [encryptFile], [decryptToken] and [fingerprintFromToken]
    throw. *)
Inductive err : Type :=
| ErrMissingPrefix   (* "Invalid token (missing PASCO1 header)." *)
| ErrTokenFormat     (* "Invalid token format." *)
| ErrHeaderSyntax    (* atob or JSON.parse throws on the header segment *)
| ErrHeaderNull      (* TypeError: reading [v] of a [null] header *)
| ErrVersion         (* "Unsupported token version." *)
| ErrAlgorithm       (* "Unsupported algorithm." *)
| ErrKdf             (* "Unsupported KDF." *)
| ErrFieldType       (* TypeError: [salt] or [iv] is not a string *)
| ErrBase64          (* atob throws on salt, iv or ciphertext *)
| ErrKeyDerivation   (* WebCrypto rejects the PBKDF2 parameters *)
| ErrFileRead        (* [file.arrayBuffer()] rejects (NotReadableError) *)
| ErrWrongKey.       (* "Wrong key or corrupted token." *)

(** The host environment: TextEncoder / TextDecoder, JSON and WebCrypto
    ([assertWebCrypto] is assumed to pass). *)
Class Host : Type := {
  Key : Type;
  utf8Encode : jsstr -> bytes;
  utf8Decode : bytes -> jsstr;
  json_stringify : json -> jsstr;
  json_parse : jsstr -> option json;          (* None: SyntaxError *)
  string_to_integer : jsstr -> option Z;
    (* ToNumber of a string, truncated toward zero;
       None: NaN, +Infinity or -Infinity *)
  sha256 : bytes -> bytes;
  pbkdf2 : bytes -> bytes -> Z -> option Key; (* None: rejected *)
  gcm_encrypt : Key -> bytes -> bytes -> bytes;
  gcm_decrypt : Key -> bytes -> bytes -> option bytes (* None: OperationError *)
}.

(* ================================================================== *)
(** ** An async computation that may throw, with its cryptographic trace *)

Definition M (A : Type) : Type := list cev * (err + A).

Definition ret {A} (a : A) : M A := ([], inr a).
Definition throw {A} (e : err) : M A := ([], inl e).
Definition emit (ev : cev) : M unit := ([ev], inr tt).

Definition bind {A B} (m : M A) (f : A -> M B) : M B :=
  match m with
  | (t, inl e) => (t, inl e)
  | (t, inr a) => let (t', r) := f a in (t ++ t', r)
  end.

Notation "x <-- m ;; k" := (bind m (fun x => k))
  (at level 60, m at next level, right associativity).

Definition lift {A} (e : err) (o : option A) : M A :=
  match o with Some a => ret a | None => throw e end.

(* ================================================================== *)
(** ** crypto.ts *)

Record PascoHeader : Type := mkHeader {
  h_v : Z; h_alg : jsstr; h_kdf : jsstr; h_iter : Z;
  h_salt : jsstr; h_iv : jsstr; h_createdAt : jsstr; h_kind : jsstr;
  h_filename : option jsstr; h_mime : option jsstr; h_size : option Z;
  h_note : option jsstr }.

Definition opt_field (k : string) (o : option json) : list (jsstr * json) :=
  match o with Some j => [(js k, j)] | None => [] end.

(** The object literal of [encryptText] / [encryptFile] as JSON sees it:
    properties in literal order, [undefined] ones left out. *)
Definition header_json (h : PascoHeader) : json :=
  JObj ([(js "v", JNum (h_v h)); (js "alg", JStr (h_alg h));
         (js "kdf", JStr (h_kdf h)); (js "iter", JNum (h_iter h));
         (js "salt", JStr (h_salt h)); (js "iv", JStr (h_iv h));
         (js "createdAt", JStr (h_createdAt h)); (js "kind", JStr (h_kind h))]
        ++ opt_field "filename" (option_map JStr (h_filename h))
        ++ opt_field "mime" (option_map JStr (h_mime h))
        ++ opt_field "size" (option_map JNum (h_size h))
        ++ opt_field "note" (option_map JStr (h_note h))).

Inductive DecryptResult : Type :=
| DText (header : json) (text : jsstr) (fingerprint : jsstr)
| DFile (header : json) (bytes : bytes) (fingerprint : jsstr).

Definition res_fingerprint (r : DecryptResult) : jsstr :=
  match r with DText _ _ fp | DFile _ _ fp => fp end.

Definition res_header (r : DecryptResult) : json :=
  match r with DText h _ _ | DFile h _ _ => h end.

Definition hex_digit (d : N) : N := if d <? 10 then 48 + d else 87 + d.

(** [b.toString(16).padStart(2, "0")] *)
Definition hex_byte (b : Byte.byte) : jsstr :=
  [hex_digit (Byte.to_N b / 16); hex_digit (Byte.to_N b mod 16)].

Section Crypto.
Context `{Host}.

Definition sha256Hex (bs : bytes) : M jsstr :=
  _ <-- emit EvDigest ;; ret (flat_map hex_byte (sha256 bs)).

Definition deriveKey (password : jsstr) (salt : bytes) (iterations : Z) : M Key :=
  _ <-- emit EvImportKey ;;
  _ <-- emit (EvDeriveKey iterations) ;;
  lift ErrKeyDerivation (pbkdf2 (utf8Encode password) salt iterations).

Definition packHeader (header : PascoHeader) : jsstr :=
  toB64Url (utf8Encode (json_stringify (header_json header))).

Definition unpackHeader (b64url : jsstr) : M json :=
  match fromB64Url b64url with
  | Some bs => lift ErrHeaderSyntax (json_parse (utf8Decode bs))
  | None => throw ErrHeaderSyntax
  end.

Definition PREFIX : jsstr := js "PASCO1.".

Definition DOT : N := 46.

Record EncryptOptions : Type := mkOptions {
  password : jsstr; note : option jsstr; iterations : option Z }.

(** [Math.max(50_000, Math.min(600_000, opts.iterations ?? dflt))] *)
Definition clamp_iterations (requested : option Z) (dflt : Z) : Z :=
  Z.max 50000 (Z.min 600000 (match requested with Some n => n | None => dflt end)).

(** [opts.note?.trim() || undefined] *)
Definition trimmed_note (n : option jsstr) : option jsstr :=
  match n with
  | Some s => match trim s with [] => None | t => Some t end
  | None => None
  end.

(** [salt], [iv] (from [crypto.getRandomValues]) and [createdAt] (the
    clock) are the values the environment supplies. *)
Definition encryptText (text : jsstr) (opts : EncryptOptions)
    (salt iv : bytes) (createdAt : jsstr) : M (jsstr * PascoHeader * jsstr) :=
  let iterations := clamp_iterations (iterations opts) 220000 in
  key <-- deriveKey (password opts) salt iterations ;;
  let pt := utf8Encode text in
  _ <-- emit EvEncrypt ;;
  let ctBytes := gcm_encrypt key iv pt in
  let header := {| h_v := 1; h_alg := js "AES-256-GCM"; h_kdf := js "PBKDF2-SHA256";
                   h_iter := iterations; h_salt := toB64Url salt; h_iv := toB64Url iv;
                   h_createdAt := createdAt; h_kind := js "text";
                   h_filename := None; h_mime := None; h_size := None;
                   h_note := trimmed_note (note opts) |} in
  let token := PREFIX ++ packHeader header ++ [DOT] ++ toB64Url ctBytes in
  fingerprint <-- sha256Hex ctBytes ;;
  ret (token, header, fingerprint).

(** A browser [File]: its name, its (possibly empty) MIME type, its bytes
    ([file.size] is their number), and whether [file.arrayBuffer()]
    can read them (it rejects with NotReadableError, for instance when the
    file changed on disk after it was picked). *)
Record File : Type := mkFile {
  f_name : jsstr; f_type : jsstr; f_content : bytes; f_readable : bool }.

(** [await file.arrayBuffer()] *)
Definition arrayBuffer (file : File) : M bytes :=
  if f_readable file then ret (f_content file) else throw ErrFileRead.

Definition encryptFile (file : File) (opts : EncryptOptions)
    (salt iv : bytes) (createdAt : jsstr) : M (jsstr * PascoHeader * jsstr) :=
  let iterations := clamp_iterations (iterations opts) 260000 in
  key <-- deriveKey (password opts) salt iterations ;;
  ab <-- arrayBuffer file ;;
  let pt := ab in
  _ <-- emit EvEncrypt ;;
  let ctBytes := gcm_encrypt key iv pt in
  let header := {| h_v := 1; h_alg := js "AES-256-GCM"; h_kdf := js "PBKDF2-SHA256";
                   h_iter := iterations; h_salt := toB64Url salt; h_iv := toB64Url iv;
                   h_createdAt := createdAt; h_kind := js "file";
                   h_filename := Some (f_name file);
                   h_mime := Some (match f_type file with
                                   | [] => js "application/octet-stream"
                                   | t => t end);
                   h_size := Some (Z.of_nat (length (f_content file)));
                   h_note := trimmed_note (note opts) |} in
  let token := PREFIX ++ packHeader header ++ [DOT] ++ toB64Url ctBytes in
  fingerprint <-- sha256Hex ctBytes ;;
  ret (token, header, fingerprint).

(** [obj.k] on a value that is not [null]. *)
Definition prop_of (j : json) (k : string) : option json :=
  match j with
  | JObj fs =>
      match find (fun kv => bool_decide (fst kv = js k)) fs with
      | Some kv => Some (snd kv) | None => None end
  | _ => None
  end.

(** [obj.k]; reading a property of [null] throws a TypeError. *)
Definition get (j : json) (k : string) : M (option json) :=
  match j with
  | JNull => throw ErrHeaderNull
  | _ => ret (prop_of j k)
  end.

(** [x === n] for a number, [x === s] for a string. *)
Definition is_num (o : option json) (n : Z) : bool :=
  match o with Some (JNum z) => Z.eqb z n | _ => false end.

Definition is_str (o : option json) (s : string) : bool :=
  match o with Some (JStr t) => bool_decide (t = js s) | _ => false end.

(** [fromB64Url(header.salt)]: a TypeError unless the field is a string. *)
Definition field_bytes (o : option json) : M bytes :=
  match o with
  | Some (JStr s) => lift ErrBase64 (fromB64Url s)
  | _ => throw ErrFieldType
  end.

(** ToNumber of a JSON value, truncated toward zero (IntegerPart); None
    for NaN and the infinities.  [null] is 0 and a boolean 0 or 1; an
    array goes through [join(",")]: the empty one is 0, one of two or more
    elements holds a comma and is NaN, and a single element counts as its
    [String]: [null] as the empty string (0), a boolean as "true" or
    "false" (NaN), a number as itself, a nested array as its own join; an
    object is "[object Object]", NaN. *)
Fixpoint json_to_integer (j : json) : option Z :=
  match j with
  | JNull => Some 0%Z
  | JBool b => Some (if b then 1 else 0)%Z
  | JNum z => Some z
  | JStr s => string_to_integer s
  | JArr [] => Some 0%Z
  | JArr [x] =>
      match x with
      | JNull => Some 0%Z
      | JBool _ | JObj _ => None
      | _ => json_to_integer x
      end
  | JArr _ => None
  | JObj _ => None
  end.

(** WebIDL's conversion of the [iterations] member of [Pbkdf2Params], an
    [[EnforceRange]] [unsigned long] that is required: a missing member,
    NaN or an infinity, or an integer part outside [[0, 2^32 - 1]] is a
    TypeError. *)
Definition iterations_param (it : option json) : option Z :=
  match it with
  | None => None
  | Some j =>
      match json_to_integer j with
      | Some n => if ((0 <=? n) && (n <=? 4294967295))%Z then Some n else None
      | None => None
      end
  end.

(** [deriveKey(password, salt, header.iter)]: the password is imported,
    then [crypto.subtle.deriveKey] converts the count and rejects with a
    TypeError when it is not a valid [unsigned long]; otherwise PBKDF2
    runs with the converted count. *)
Definition deriveKey_from (password : jsstr) (salt : bytes) (it : option json) : M Key :=
  match iterations_param it with
  | Some n => deriveKey password salt n
  | None => _ <-- emit EvImportKey ;; throw ErrKeyDerivation
  end.

Definition decryptToken (token password : jsstr) : M DecryptResult :=
  let trimmed := trim token in
  if negb (startsWith trimmed PREFIX) then throw ErrMissingPrefix else
  match str_split DOT trimmed with
  | [_; part1; part2] =>
      header <-- unpackHeader part1 ;;
      v <-- get header "v" ;;
      if negb (is_num v 1) then throw ErrVersion else
      alg <-- get header "alg" ;;
      if negb (is_str alg "AES-256-GCM") then throw ErrAlgorithm else
      kdf <-- get header "kdf" ;;
      if negb (is_str kdf "PBKDF2-SHA256") then throw ErrKdf else
      salt_f <-- get header "salt" ;;
      salt <-- field_bytes salt_f ;;
      iv_f <-- get header "iv" ;;
      iv <-- field_bytes iv_f ;;
      ctBytes <-- lift ErrBase64 (fromB64Url part2) ;;
      iter <-- get header "iter" ;;
      key <-- deriveKey_from password salt iter ;;
      _ <-- emit EvDecrypt ;;
      ptBuf <-- lift ErrWrongKey (gcm_decrypt key iv ctBytes) ;;
      fingerprint <-- sha256Hex ctBytes ;;
      kind <-- get header "kind" ;;
      if is_str kind "text"
      then ret (DText header (utf8Decode ptBuf) fingerprint)
      else ret (DFile header ptBuf fingerprint)
  | _ => throw ErrTokenFormat
  end.

Definition fingerprintFromToken (token : jsstr) : M jsstr :=
  let trimmed := trim token in
  if negb (startsWith trimmed PREFIX) then throw ErrMissingPrefix else
  match str_split DOT trimmed with
  | [_; _; part2] =>
      ctBytes <-- lift ErrBase64 (fromB64Url part2) ;;
      sha256Hex ctBytes
  | _ => throw ErrTokenFormat
  end.

End Crypto.

(* ================================================================== *)
(** ** CryptoLab.tsx: [runDecrypt] and the per-device attempt map *)

(** [localStorage["pasco_crypto_attempts_v2"]]: attempts per fingerprint. *)
Abbreviation attempts_map := (gmap jsstr Z).

Definition maxAttempts : Z := 5.

(** What the page shows at the end of [runDecrypt]. *)
Inductive DecryptOutcome : Type :=
| NeedToken                      (* "Paste an encrypted token first" *)
| NeedKey                        (* "Enter the secret key" *)
| LockedOut (fingerprint : jsstr)  (* "Locked: too many wrong attempts ..." *)
| ShowText (text : jsstr)        (* "Decrypted successfully" *)
| ShowFile (header : json) (bytes : bytes)  (* "File decrypted successfully" *)
| WrongKey (left : Z)            (* "Wrong key. Attempts left: .."; locked when 0 *)
| Failed (e : err).              (* the error's message, no fingerprint *)

Section Lockout.
Context `{Host}.

Definition shown (r : DecryptResult) : DecryptOutcome :=
  match r with
  | DText _ text _ => ShowText text
  | DFile h bs _ => ShowFile h bs
  end.

(** [attemptsMap[fp] ?? 0] *)
Definition used_attempts (m : attempts_map) (fp : jsstr) : Z :=
  match m !! fp with Some n => n | None => 0%Z end.

(** One click on "Decrypt": the trace of cryptographic work, the outcome
    and the attempt map saved afterwards. *)
Definition runDecrypt (tokenToDecrypt decPassword : jsstr) (attemptsMap : attempts_map)
    : list cev * DecryptOutcome * attempts_map :=
  let token := trim tokenToDecrypt in
  if bool_decide (token = []) then ([], NeedToken, attemptsMap) else
  if bool_decide (trim decPassword = []) then ([], NeedKey, attemptsMap) else
  match decryptToken token decPassword with
  | (t, inr res) =>
      let used := used_attempts attemptsMap (res_fingerprint res) in
      if (maxAttempts <=? used)%Z
      then (t, LockedOut (res_fingerprint res), attemptsMap)
      else (t, shown res, <[res_fingerprint res := 0%Z]> attemptsMap)
  | (t, inl e) =>
      match fingerprintFromToken token with
      | (t', inr fp) =>
          let next := (used_attempts attemptsMap fp + 1)%Z in
          (t ++ t', WrongKey (Z.max 0 (maxAttempts - next)), <[fp := next]> attemptsMap)
      | (t', inl _) => (t ++ t', Failed e, attemptsMap)
      end
  end.

Definition run_trace (r : list cev * DecryptOutcome * attempts_map) := fst (fst r).
Definition run_outcome (r : list cev * DecryptOutcome * attempts_map) := snd (fst r).
Definition run_attempts (r : list cev * DecryptOutcome * attempts_map) := snd r.

(** A sequence of clicks with the same token. *)
Fixpoint runDecrypts (token : jsstr) (pws : list jsstr) (m : attempts_map) : attempts_map :=
  match pws with
  | [] => m
  | pw :: rest => runDecrypts token rest (run_attempts (runDecrypt token pw m))
  end.

End Lockout.

(* ================================================================== *)
(** ** Vocabulary of the results *)

(** What the round trip needs from the host: AES-GCM decrypts what it
    encrypted under the same key and IV, and a header object survives
    JSON.stringify, UTF-8 encoding and decoding, and JSON.parse. *)
Definition gcm_roundtrip `{Host} : Prop :=
  forall k iv pt, gcm_decrypt k iv (gcm_encrypt k iv pt) = Some pt.

Definition header_roundtrip `{Host} : Prop :=
  forall h, json_parse (utf8Decode (utf8Encode (json_stringify (header_json h))))
            = Some (header_json h).

(** A parsed header whose version, algorithm and KDF are the supported
    ones. *)
Definition supported_header (hj : json) : bool :=
  is_num (prop_of hj "v") 1 && is_str (prop_of hj "alg") "AES-256-GCM"
  && is_str (prop_of hj "kdf") "PBKDF2-SHA256".

(** The structural ("not a valid token") errors. *)
Definition format_error (e : err) : bool :=
  match e with
  | ErrMissingPrefix | ErrTokenFormat | ErrHeaderSyntax | ErrHeaderNull
  | ErrVersion | ErrAlgorithm | ErrKdf => true
  | _ => false
  end.

(* ================================================================== *)
(** ** CryptoLab.tsx: history, the encrypt actions and [fmtBytes] *)

Inductive HistoryAction : Type := ActEncrypt | ActDecrypt.
Inductive HistoryKind : Type := KText | KFile.

(** [HistoryItem]; [id] is [crypto.randomUUID()] and [ts] is [Date.now()]. *)
Record HistoryItem : Type := mkItem {
  hi_id : jsstr; hi_ts : Z; hi_action : HistoryAction; hi_kind : HistoryKind;
  hi_fingerprint : jsstr; hi_filename : option jsstr; hi_size : option Z;
  hi_note : option jsstr; hi_ok : bool }.

(** [pushHistory]: [[item, ...history].slice(0, 20)], which becomes both
    the [history] state and the [localStorage] copy. *)
Definition pushHistory (item : HistoryItem) (history : list HistoryItem) : list HistoryItem :=
  firstn 20 (item :: history).

(** What the encrypt card shows after a click. *)
Inductive EncryptOutcome : Type :=
| NeedText                   (* "Enter text to encrypt" *)
| NeedFile                   (* "Select a file first" *)
| NeedSecret                 (* "Enter a secret key" *)
| Encrypted (token : jsstr)  (* "Encrypted successfully": [setEncryptedToken(token)] *)
| EncryptFailed (e : err).   (* the error's message *)

Section Page.
Context `{Host}.

(** [runEncryptText]: [salt], [iv] and [createdAt] go to [encryptText];
    [id] and [ts] are the new history item's; [history] is the list the
    click's closure sees. *)
Definition runEncryptText (plainText encPassword encNote : jsstr)
    (salt iv : bytes) (createdAt id : jsstr) (ts : Z) (history : list HistoryItem)
    : list cev * EncryptOutcome * list HistoryItem :=
  if bool_decide (trim plainText = []) then ([], NeedText, history) else
  if bool_decide (trim encPassword = []) then ([], NeedSecret, history) else
  match encryptText plainText (mkOptions encPassword (Some encNote) None)
          salt iv createdAt with
  | (t, inr (token, header, fingerprint)) =>
      (t, Encrypted token,
       pushHistory (mkItem id ts ActEncrypt KText fingerprint None None (h_note header) true)
         history)
  | (t, inl e) =>
      (t, EncryptFailed e,
       pushHistory (mkItem id ts ActEncrypt KText (js "n/a") None None None false) history)
  end.

(** [runEncryptFile]; [fileToEncrypt] is [null] when no file is selected. *)
Definition runEncryptFile (fileToEncrypt : option File) (encPassword encNote : jsstr)
    (salt iv : bytes) (createdAt id : jsstr) (ts : Z) (history : list HistoryItem)
    : list cev * EncryptOutcome * list HistoryItem :=
  match fileToEncrypt with
  | None => ([], NeedFile, history)
  | Some file =>
  if bool_decide (trim encPassword = []) then ([], NeedSecret, history) else
  match encryptFile file (mkOptions encPassword (Some encNote) None)
          salt iv createdAt with
  | (t, inr (token, header, fingerprint)) =>
      (t, Encrypted token,
       pushHistory (mkItem id ts ActEncrypt KFile fingerprint (h_filename header)
                      (h_size header) (h_note header) true) history)
  | (t, inl e) =>
      (t, EncryptFailed e,
       pushHistory (mkItem id ts ActEncrypt KFile (js "n/a") None None None false) history)
  end
  end.

End Page.

(** The digits of [String(n)] for a natural number [n]. *)
Fixpoint uint_chars (d : Decimal.uint) : jsstr :=
  match d with
  | Decimal.Nil => []
  | Decimal.D0 r => 48 :: uint_chars r | Decimal.D1 r => 49 :: uint_chars r
  | Decimal.D2 r => 50 :: uint_chars r | Decimal.D3 r => 51 :: uint_chars r
  | Decimal.D4 r => 52 :: uint_chars r | Decimal.D5 r => 53 :: uint_chars r
  | Decimal.D6 r => 54 :: uint_chars r | Decimal.D7 r => 55 :: uint_chars r
  | Decimal.D8 r => 56 :: uint_chars r | Decimal.D9 r => 57 :: uint_chars r
  end.

Definition dec_N (n : N) : jsstr := uint_chars (N.to_uint n).

(** [x.toFixed(0)] for an integer [x] below 10^21 in magnitude. *)
Definition toFixed0 (x : Z) : jsstr :=
  if (x <? 0)%Z then 45 :: dec_N (Z.to_N (- x)) else dec_N (Z.to_N x).

(** [(n / d).toFixed(1)] for [n >= 0] and [d > 0]: the integer [k] with
    [k / 10] closest to [n / d], the larger one on a tie, written with
    its last digit after a point and at least one digit before it. *)
Definition toFixed1 (n d : Z) : jsstr :=
  let k := ((20 * n + d) / (2 * d))%Z in
  let m := dec_N (Z.to_N k) in
  let m := if (length m <=? 1)%nat then repeat 48 (2 - length m) ++ m else m in
  firstn (length m - 1) m ++ [46] ++ skipn (length m - 1) m.

Definition units : list jsstr := [js "B"; js "KB"; js "MB"; js "GB"].

(** The [while (x >= 1024 && i < units.length - 1)] loop, [x] being
    [n / 1024^i]: sizes are integers below 2^53, and dividing those by
    1024 is exact in binary floating point, so [x >= 1024] is
    [n >= 1024^(i+1)].  The loop runs at most [units.length - 1] times. *)
Fixpoint unit_loop (fuel : nat) (n : Z) (i : nat) : nat :=
  match fuel with
  | O => i
  | S f =>
      if (1024 ^ Z.of_nat (S i) <=? n)%Z && (i <? length units - 1)%nat
      then unit_loop f n (S i) else i
  end.

(** [fmtBytes(n)]; [None] is [undefined]. *)
Definition fmtBytes (n : option Z) : jsstr :=
  match n with
  | None => js "-"
  | Some n =>
      let i := unit_loop (length units) n 0 in
      (if (i =? 0)%nat then toFixed0 n else toFixed1 n (1024 ^ Z.of_nat i))
        ++ [32] ++ nth i units []
  end.

(** A run of [pushHistory]s, oldest item first. *)
Fixpoint pushAll (items history : list HistoryItem) : list HistoryItem :=
  match items with
  | [] => history
  | item :: rest => pushAll rest (pushHistory item history)
  end.

(** A result with its header object replaced. *)
Definition with_header (hj : json) (r : DecryptResult) : DecryptResult :=
  match r with
  | DText _ text fp => DText hj text fp
  | DFile _ bs fp => DFile hj bs fp
  end.

(* ================================================================== *)
(** ** A concrete host, for running the code on concrete inputs

    Text is encoded code unit by code unit (a unit below 255 as one byte,
    a larger unit [n] as [ff], [n - 255] bytes [01] and a byte [00]), JSON is a length-prefixed encoding with decimal
    numbers, the digest and the authentication tag are checksums.  It has
    the properties [gcm_roundtrip] and [header_roundtrip] below. *)

Module ToyHost.

Definition enc_unit (n : N) : bytes :=
  if n <? 255 then [u8 n]
  else Byte.xff :: repeat Byte.x01 (N.to_nat (n - 255)) ++ [Byte.x00].

Definition toy_utf8Encode (s : jsstr) : bytes := flat_map enc_unit s.

Fixpoint dec_big (acc : N) (bs : bytes) : option (N * bytes) :=
  match bs with
  | [] => None
  | b :: r => if Byte.eqb b Byte.x00 then Some (acc, r) else dec_big (acc + 1) r
  end.

Fixpoint dec_units (fuel : nat) (bs : bytes) : jsstr :=
  match fuel with
  | O => []
  | S f =>
      match bs with
      | [] => []
      | b :: r =>
          if Byte.eqb b Byte.xff then
            match dec_big 255 r with
            | Some (n, r') => n :: dec_units f r'
            | None => []
            end
          else Byte.to_N b :: dec_units f r
      end
  end.

Definition toy_utf8Decode (bs : bytes) : jsstr := dec_units (length bs) bs.

Fixpoint digits_of (d : Decimal.uint) : list N :=
  match d with
  | Decimal.Nil => []
  | Decimal.D0 r => 0 :: digits_of r | Decimal.D1 r => 1 :: digits_of r
  | Decimal.D2 r => 2 :: digits_of r | Decimal.D3 r => 3 :: digits_of r
  | Decimal.D4 r => 4 :: digits_of r | Decimal.D5 r => 5 :: digits_of r
  | Decimal.D6 r => 6 :: digits_of r | Decimal.D7 r => 7 :: digits_of r
  | Decimal.D8 r => 8 :: digits_of r | Decimal.D9 r => 9 :: digits_of r
  end.

Fixpoint uint_of (l : list N) : Decimal.uint :=
  match l with
  | [] => Decimal.Nil
  | d :: r =>
      let u := uint_of r in
      if d =? 0 then Decimal.D0 u else if d =? 1 then Decimal.D1 u
      else if d =? 2 then Decimal.D2 u else if d =? 3 then Decimal.D3 u
      else if d =? 4 then Decimal.D4 u else if d =? 5 then Decimal.D5 u
      else if d =? 6 then Decimal.D6 u else if d =? 7 then Decimal.D7 u
      else if d =? 8 then Decimal.D8 u else Decimal.D9 u
  end.

Definition ser_str (s : jsstr) : list N := N.of_nat (length s) :: s.

Definition ser_num (z : Z) : list N :=
  (if (z <? 0)%Z then 1 else 0) :: ser_str (digits_of (N.to_uint (Z.abs_N z))).

Definition ser_scalar (j : json) : list N :=
  match j with
  | JStr s => 0 :: ser_str s
  | JNum z => 1 :: ser_num z
  | JNull => [2]
  | JBool b => [3; if b then 1 else 0]
  | _ => [4]
  end.

Definition toy_json_stringify (j : json) : jsstr :=
  match j with
  | JObj fs => 5 :: N.of_nat (length fs)
                 :: flat_map (fun kv => ser_str (fst kv) ++ ser_scalar (snd kv)) fs
  | _ => ser_scalar j
  end.

Definition parse_str (l : list N) : option (jsstr * list N) :=
  match l with
  | n :: r => if Nat.leb (N.to_nat n) (length r)
              then Some (firstn (N.to_nat n) r, skipn (N.to_nat n) r) else None
  | [] => None
  end.

Definition parse_scalar (l : list N) : option (json * list N) :=
  match l with
  | t :: r =>
      if t =? 0 then
        match parse_str r with Some (s, r') => Some (JStr s, r') | None => None end
      else if t =? 1 then
        match r with
        | sg :: r1 =>
            match parse_str r1 with
            | Some (ds, r') =>
                let a := Z.of_N (N.of_uint (uint_of ds)) in
                Some (JNum (if sg =? 1 then Z.opp a else a), r')
            | None => None
            end
        | [] => None
        end
      else if t =? 2 then Some (JNull, r)
      else if t =? 3 then
        match r with b :: r' => Some (JBool (negb (b =? 0)), r') | [] => None end
      else None
  | [] => None
  end.

Fixpoint parse_fields (n : nat) (l : list N) : option (list (jsstr * json) * list N) :=
  match n with
  | O => Some ([], l)
  | S n' =>
      match parse_str l with
      | Some (k, r) =>
          match parse_scalar r with
          | Some (v, r') =>
              match parse_fields n' r' with
              | Some (fs, r'') => Some ((k, v) :: fs, r'')
              | None => None
              end
          | None => None
          end
      | None => None
      end
  end.

Definition toy_json_parse (l : jsstr) : option json :=
  match l with
  | t :: c :: r =>
      if t =? 5 then
        match parse_fields (N.to_nat c) r with
        | Some (fs, []) => Some (JObj fs)
        | _ => None
        end
      else match parse_scalar l with Some (j, []) => Some j | _ => None end
  | _ => match parse_scalar l with Some (j, []) => Some j | _ => None end
  end.

Definition checksum (bs : bytes) : N :=
  fold_left (fun a b => (a * 31 + Byte.to_N b) mod 65521) bs 7.

Definition toy_sha256 (bs : bytes) : bytes :=
  [u8 (checksum bs); u8 (checksum bs / 256); u8 (N.of_nat (length bs))].

Definition toy_pbkdf2 (pw salt : bytes) (n : Z) : option bytes :=
  if (0 <? n)%Z then Some (pw ++ salt) else None.

Definition tag (k iv : bytes) : Byte.byte := u8 (checksum (k ++ iv)).

Definition toy_gcm_encrypt (k iv pt : bytes) : bytes := tag k iv :: pt.

Definition toy_gcm_decrypt (k iv ct : bytes) : option bytes :=
  match ct with
  | t :: pt => if Byte.eqb t (tag k iv) then Some pt else None
  | [] => None
  end.

(** ToNumber on strings of decimal digits with an optional minus sign
    (the empty string is 0); anything else is NaN here. *)
Fixpoint dec_digits (acc : Z) (s : jsstr) : option Z :=
  match s with
  | [] => Some acc
  | c :: r => if (48 <=? c) && (c <=? 57)
              then dec_digits (acc * 10 + Z.of_N (c - 48))%Z r else None
  end.

Definition toy_string_to_integer (s : jsstr) : option Z :=
  match s with
  | 45 :: (_ :: _) as r => option_map Z.opp (dec_digits 0 r)
  | _ => dec_digits 0 s
  end.

#[export] Instance host : Host := {|
  Key := bytes;
  utf8Encode := toy_utf8Encode;
  utf8Decode := toy_utf8Decode;
  json_stringify := toy_json_stringify;
  json_parse := toy_json_parse;
  string_to_integer := toy_string_to_integer;
  sha256 := toy_sha256;
  pbkdf2 := toy_pbkdf2;
  gcm_encrypt := toy_gcm_encrypt;
  gcm_decrypt := toy_gcm_decrypt |}.

End ToyHost.

(* ================================================================== *)
(** ** Concrete runs on the concrete host *)

Module Samples.
Import ToyHost.

Definition salt : bytes := map (fun n => u8 (N.of_nat n)) (seq 1 16).
Definition iv : bytes := map (fun n => u8 (N.of_nat n)) (seq 100 12).
Definition createdAt : jsstr := js "2026-01-01T00:00:00.000Z".
Definition pw : jsstr := js "correct-horse".
Definition wrong_pw : jsstr := js "wrong-horse".
Definition opts : EncryptOptions := mkOptions pw None None.
Definition hello : jsstr := js "hello world".

Definition no_header : PascoHeader :=
  mkHeader 0 [] [] 0 [] [] [] [] None None None None.

Definition out_token (r : M (jsstr * PascoHeader * jsstr)) : jsstr :=
  match snd r with inr (t, _, _) => t | inl _ => [] end.
Definition out_header (r : M (jsstr * PascoHeader * jsstr)) : PascoHeader :=
  match snd r with inr (_, h, _) => h | inl _ => no_header end.
Definition out_fp (r : M (jsstr * PascoHeader * jsstr)) : jsstr :=
  match snd r with inr (_, _, f) => f | inl _ => [] end.

(** [encryptText("hello world", {password: "correct-horse"})] *)
Definition text_run := encryptText hello opts salt iv createdAt.
Definition text_token : jsstr := out_token text_run.
Definition text_header : PascoHeader := out_header text_run.
Definition text_fp : jsstr := out_fp text_run.

(** A file with no MIME type. *)
Definition file : File := mkFile (js "photo.bin") [] [Byte.x00; Byte.x7f; Byte.xff] true.
Definition file_run := encryptFile file opts salt iv createdAt.
Definition file_token : jsstr := out_token file_run.
Definition file_header : PascoHeader := out_header file_run.
Definition file_fp : jsstr := out_fp file_run.

(** The text token with its header's [kind] rewritten to ["zip"]. *)
Definition zip_header : PascoHeader :=
  {| h_v := h_v text_header; h_alg := h_alg text_header; h_kdf := h_kdf text_header;
     h_iter := h_iter text_header; h_salt := h_salt text_header; h_iv := h_iv text_header;
     h_createdAt := h_createdAt text_header; h_kind := js "zip";
     h_filename := None; h_mime := None; h_size := None; h_note := None |}.
Definition zip_token : jsstr :=
  PREFIX ++ packHeader zip_header ++ [DOT] ++ nth 2 (str_split DOT text_token) [].

(** A token whose header segment is not base64: ["PASCO1.!.AAAA"]. *)
Definition bad_header_token : jsstr := js "PASCO1.!.AAAA".
Definition aaaa_fp : jsstr := flat_map hex_byte (toy_sha256 [Byte.x00; Byte.x00; Byte.x00]).

(** The text token's decryption with the right password. *)
Definition text_decrypt := decryptToken text_token pw.
Definition text_result : DecryptResult :=
  match snd text_decrypt with inr r => r | inl _ => DText JNull [] [] end.

(** The [kind = "zip"] token's decryption with the right password. *)
Definition zip_decrypt := decryptToken zip_token pw.
Definition zip_result : DecryptResult :=
  match snd zip_decrypt with inr r => r | inl _ => DText JNull [] [] end.

(** A note with white space around it. *)
Definition note_in : jsstr := js "  trip notes ".
Definition noted_opts : EncryptOptions := mkOptions pw (Some note_in) None.
Definition noted_run := encryptText hello noted_opts salt iv createdAt.

(** The page's encrypt buttons, on an empty history. *)
Definition page_id : jsstr := js "id-1".
Definition page_ts : Z := 1767225600000%Z.
Definition page_text_run :=
  runEncryptText hello pw note_in salt iv createdAt page_id page_ts [].
Definition page_file_run :=
  runEncryptFile (Some file) pw note_in salt iv createdAt page_id page_ts [].
Definition enc_token (r : list cev * EncryptOutcome * list HistoryItem) : jsstr :=
  match snd (fst r) with Encrypted tok => tok | _ => [] end.

(** Two history items. *)
Definition item_a : HistoryItem :=
  mkItem (js "a") 1 ActEncrypt KText text_fp None None None true.
Definition item_b : HistoryItem :=
  mkItem (js "b") 2 ActDecrypt KText text_fp None None None false.

(** Headers written by hand: the text token's header with one property
    replaced or removed, packed as [packHeader] does, in front of the
    text token's ciphertext. *)
Definition with_prop (k : string) (v : json) (j : json) : json :=
  match j with
  | JObj fs => JObj (map (fun kv => if bool_decide (fst kv = js k) then (fst kv, v) else kv) fs)
  | _ => j
  end.
Definition without_prop (k : string) (j : json) : json :=
  match j with
  | JObj fs => JObj (filter (fun kv => negb (bool_decide (fst kv = js k))) fs)
  | _ => j
  end.
Definition raw_token (hj : json) : jsstr :=
  PREFIX ++ toB64Url (toy_utf8Encode (toy_json_stringify hj)) ++ [DOT]
  ++ nth 2 (str_split DOT text_token) [].

(** [iter] written as the string ["220000"]. *)
Definition iter_str_token : jsstr :=
  raw_token (with_prop "iter" (JStr (js "220000")) (header_json text_header)).
(** No [kind] at all. *)
Definition no_kind_token : jsstr := raw_token (without_prop "kind" (header_json text_header)).

(** The pieces [decryptToken] reads from a token, for a password. *)
Definition seg (tok : jsstr) (i : nat) : jsstr := nth i (str_split DOT (trim tok)) [].
Definition hdr_of (tok : jsstr) : json :=
  match snd (unpackHeader (seg tok 1)) with inr j => j | inl _ => JNull end.
Definition bytes_of (o : option json) : bytes :=
  match snd (field_bytes o) with inr b => b | inl _ => [] end.
Definition ct_of (tok : jsstr) : bytes :=
  match fromB64Url (seg tok 2) with Some c => c | None => [] end.
Definition iter_of (tok : jsstr) : Z :=
  match iterations_param (prop_of (hdr_of tok) "iter") with Some n => n | None => 0%Z end.
Definition key_of (tok pw : jsstr) : bytes :=
  match toy_pbkdf2 (toy_utf8Encode pw) (bytes_of (prop_of (hdr_of tok) "salt")) (iter_of tok)
  with Some k => k | None => [] end.
Definition pt_of (tok pw : jsstr) : bytes :=
  match toy_gcm_decrypt (key_of tok pw) (bytes_of (prop_of (hdr_of tok) "iv")) (ct_of tok)
  with Some p => p | None => [] end.

End Samples.

(* ================================================================== *)
(** ** The base64url alphabet, letter by letter *)

Definition url_of (v : N) : N :=
  (fun c => if c =? 47 then 95 else c) ((fun c => if c =? 43 then 45 else c) (b64_char v)).

Definition base_of_url (c : N) : N :=
  (fun c => if c =? 95 then 47 else c) ((fun c => if c =? 45 then 43 else c) c).

(** Everything the round trip needs about one alphabet letter. *)
Definition sextet_ok (v : N) : bool :=
  negb (b64_char v =? 61) && negb (is_ascii_space (b64_char v))
  && match b64_value (b64_char v) with Some w => w =? v | None => false end
  && negb (url_of v =? 61) && negb (url_of v =? 46) && negb (is_js_space (url_of v))
  && (base_of_url (url_of v) =? b64_char v).

(* ================================================================== *)
(** * Base64url *)

Ltac arith := zify; Z.to_euclidean_division_equations; lia.

Lemma forallb_below_64 (P : N -> bool) :
  forallb P (map N.of_nat (seq 0 64)) = true -> forall v, v < 64 -> P v = true.
Proof.
  intros Hall v Hv. rewrite forallb_forall in Hall. apply Hall.
  apply in_map_iff. exists (N.to_nat v). split; [lia | apply in_seq; lia].
Qed.

Lemma sextet_ok_below_64 v : v < 64 -> sextet_ok v = true.
Proof. apply forallb_below_64. vm_compute. reflexivity. Qed.

Lemma sextet_facts v : v < 64 ->
  b64_char v <> 61 /\ is_ascii_space (b64_char v) = false
  /\ b64_value (b64_char v) = Some v /\ url_of v <> 61 /\ url_of v <> 46
  /\ is_js_space (url_of v) = false /\ base_of_url (url_of v) = b64_char v.
Proof.
  intros Hv. pose proof (sextet_ok_below_64 v Hv) as Hok. unfold sextet_ok in Hok.
  destruct (b64_value (b64_char v)) as [w|] eqn:Hw; [|rewrite !andb_false_r in Hok; simpl in Hok; discriminate].
  repeat rewrite andb_true_iff in Hok. rewrite !negb_true_iff in Hok.
  destruct Hok as [[[[[[H1 H2] H3] H4] H5] H6] H7].
  apply N.eqb_eq in H3, H7. apply N.eqb_neq in H1, H4, H5. subst w.
  repeat split; assumption.
Qed.

Lemma restore_padding_4 L : restore_padding (4 + L) = restore_padding L.
Proof.
  unfold restore_padding. replace (4 + L + 3)%nat with ((L + 3) + 1 * 4)%nat by lia.
  now rewrite Nat.Div0.mod_add.
Qed.

Lemma b64_padding_3 n : b64_padding (3 + n) = b64_padding n.
Proof.
  unfold b64_padding. replace (3 + n)%nat with (n + 1 * 3)%nat by lia.
  now rewrite Nat.Div0.mod_add.
Qed.

Lemma sextets_spec (s : list N) :
  Forall (fun x => x < 256) s ->
  Forall (fun v => v < 64) (b64_sextets s) /\ b64_octets (b64_sextets s) = s
  /\ restore_padding (length (b64_sextets s)) = b64_padding (length s)
  /\ ((length (b64_sextets s) + length (b64_padding (length s))) mod 4 = 0)%nat.
Proof.
  revert s. fix IH 1.
  intros [| x [| y [| z r]]] Hs.
  - repeat split; constructor.
  - inversion Hs; subst. repeat split.
    + repeat constructor; arith.
    + simpl. f_equal. arith.
  - inversion Hs as [|? ? Hx Hs']; inversion Hs'; subst. repeat split.
    + repeat constructor; arith.
    + simpl. f_equal; [arith|]. f_equal. arith.
  - inversion Hs as [|? ? Hx Hs1]; inversion Hs1 as [|? ? Hy Hs2];
      inversion Hs2 as [|? ? Hz Hr]; subst.
    destruct (IH r Hr) as (Hlt & Hoct & Hpad & Hlen).
    simpl b64_sextets. simpl length.
    repeat split.
    + repeat constructor; try arith; assumption.
    + simpl. rewrite Hoct. repeat f_equal; arith.
    + replace (S (S (S (S (length (b64_sextets r))))))
        with (4 + length (b64_sextets r))%nat by lia.
      replace (S (S (S (length r)))) with (3 + length r)%nat by lia.
      rewrite restore_padding_4, b64_padding_3. exact Hpad.
    + replace (S (S (S (length r)))) with (3 + length r)%nat by lia.
      rewrite b64_padding_3.
      replace (S (S (S (S (length (b64_sextets r))))) + length (b64_padding (length r)))%nat
        with ((length (b64_sextets r) + length (b64_padding (length r))) + 1 * 4)%nat by lia.
      rewrite Nat.Div0.mod_add. exact Hlen.
Qed.

Lemma filter_keep {A} (f : A -> bool) (l : list A) :
  Forall (fun c => f c = true) l -> List.filter f l = l.
Proof. induction 1 as [|x l Hx _ IH]; [reflexivity|]. cbn [List.filter]. rewrite Hx, IH. reflexivity. Qed.

Lemma b64_padding_cases n :
  b64_padding n = [] \/ b64_padding n = [61] \/ b64_padding n = [61; 61].
Proof.
  unfold b64_padding. destruct (n mod 3)%nat as [|[|[|]]]; auto.
Qed.

Lemma strip_padding_app (X pad : jsstr) :
  Forall (fun c => c <> 61) X -> (pad = [] \/ pad = [61] \/ pad = [61; 61]) ->
  strip_padding (X ++ pad) = X.
Proof.
  intros HX Hpad. unfold strip_padding.
  assert (Hrev : Forall (fun c => c <> 61) (rev X)) by (apply Forall_rev; exact HX).
  destruct Hpad as [-> | [-> | ->]]; rewrite ?app_nil_r, ?rev_app_distr; simpl.
  - destruct (rev X) as [|a [|b r]] eqn:E.
    + apply (f_equal (@rev N)) in E. rewrite rev_involutive in E. now subst.
    + inversion Hrev; subst. apply N.eqb_neq in H1. now rewrite H1.
    + inversion Hrev; subst. apply N.eqb_neq in H1. now rewrite H1.
  - destruct (rev X) as [|b r] eqn:E; simpl.
    + apply (f_equal (@rev N)) in E. rewrite rev_involutive in E. now subst.
    + inversion Hrev; subst. apply N.eqb_neq in H1. rewrite H1. simpl.
      change (rev r ++ [b]) with (rev (b :: r)). rewrite <- E, rev_involutive.
      reflexivity.
  - rewrite rev_involutive. reflexivity.
Qed.

Lemma b64_values_chars (vs : list N) :
  Forall (fun v => v < 64) vs -> b64_values (map b64_char vs) = Some vs.
Proof.
  induction 1 as [|v vs Hv _ IH]; simpl; [reflexivity|].
  destruct (sextet_facts v Hv) as (_ & _ & -> & _). rewrite IH. reflexivity.
Qed.

Lemma atob_btoa_body (s : list N) :
  Forall (fun x => x < 256) s ->
  atob (map b64_char (b64_sextets s) ++ b64_padding (length s)) = Some s.
Proof.
  intros Hs. destruct (sextets_spec s Hs) as (Hlt & Hoct & _ & Hlen).
  assert (Hpadc := b64_padding_cases (length s)).
  assert (HX : Forall (fun c => c <> 61) (map b64_char (b64_sextets s))).
  { apply Forall_map. eapply Forall_impl; [exact Hlt|]. intros v Hv. apply sextet_facts, Hv. }
  unfold atob.
  rewrite filter_keep.
  2:{ apply Forall_app. split.
      - apply Forall_map. eapply Forall_impl; [exact Hlt|]. intros v Hv.
        destruct (sextet_facts v Hv) as (_ & -> & _). reflexivity.
      - destruct Hpadc as [-> | [-> | ->]]; repeat constructor. }
  rewrite length_app, length_map, Hlen. cbn [Nat.eqb].
  rewrite strip_padding_app by assumption.
  rewrite length_map.
  assert (Hmod : (length (b64_sextets s) mod 4 <> 1)%nat).
  { assert (Hp : (length (b64_padding (length s)) <= 2)%nat)
      by (destruct Hpadc as [-> | [-> | ->]]; simpl; lia).
    pose proof (Nat.div_mod_eq (length (b64_sextets s) + length (b64_padding (length s))) 4).
    pose proof (Nat.div_mod_eq (length (b64_sextets s)) 4).
    pose proof (Nat.mod_upper_bound (length (b64_sextets s)) 4).
    rewrite Hlen in *. lia. }
  apply Nat.eqb_neq in Hmod. rewrite Hmod.
  rewrite b64_values_chars by exact Hlt. rewrite Hoct. reflexivity.
Qed.

Lemma drop_leading_pad (pad l : jsstr) :
  Forall (fun c => c = 61) pad -> drop_leading 61 (pad ++ l) = drop_leading 61 l.
Proof. induction 1; simpl; [reflexivity|]. subst. simpl. exact IHForall. Qed.

Lemma strip_trailing_eq_app (Y pad : jsstr) :
  Forall (fun c => c <> 61) Y -> Forall (fun c => c = 61) pad ->
  strip_trailing_eq (Y ++ pad) = Y.
Proof.
  intros HY Hpad. unfold strip_trailing_eq.
  rewrite rev_app_distr, drop_leading_pad by (apply Forall_rev; exact Hpad).
  assert (Hr : Forall (fun c => c <> 61) (rev Y)) by (apply Forall_rev; exact HY).
  destruct (rev Y) as [|c r] eqn:E; simpl.
  - apply (f_equal (@rev N)) in E. rewrite rev_involutive in E. now subst.
  - inversion Hr; subst. apply N.eqb_neq in H1. rewrite H1, <- E, rev_involutive.
    reflexivity.
Qed.

Lemma binary_string_bytes (bs : bytes) :
  Forall (fun x => x < 256) (binary_string bs).
Proof.
  unfold binary_string. apply Forall_map. apply List.Forall_forall. intros b _.
  pose proof (Byte.to_N_bounded b). lia.
Qed.

Lemma btoa_binary_string (bs : bytes) :
  btoa (binary_string bs)
  = Some (map b64_char (b64_sextets (binary_string bs))
          ++ b64_padding (length (binary_string bs))).
Proof.
  unfold btoa. replace (forallb _ _) with true; [reflexivity|].
  symmetry. apply forallb_forall. intros x Hx.
  pose proof (binary_string_bytes bs) as HF. rewrite List.Forall_forall in HF.
  apply N.ltb_lt, HF, Hx.
Qed.

Lemma u8_to_N (b : Byte.byte) : u8 (Byte.to_N b) = b.
Proof.
  unfold u8. pose proof (Byte.to_N_bounded b).
  rewrite N.mod_small by lia. rewrite Byte.of_to_N. reflexivity.
Qed.

Lemma toB64Url_eq (bs : bytes) :
  toB64Url bs = map url_of (b64_sextets (binary_string bs)).
Proof.
  destruct (sextets_spec _ (binary_string_bytes bs)) as (Hlt & _).
  unfold toB64Url. rewrite btoa_binary_string. unfold replace_all.
  rewrite !map_app, !map_map.
  assert (Hpad := b64_padding_cases (length (binary_string bs))).
  rewrite strip_trailing_eq_app.
  - reflexivity.
  - apply Forall_map. eapply Forall_impl; [exact Hlt|]. intros v Hv. apply sextet_facts, Hv.
  - destruct Hpad as [-> | [-> | ->]]; repeat constructor.
Qed.

(** Decoding undoes encoding. *)
Lemma fromB64Url_toB64Url (bs : bytes) : fromB64Url (toB64Url bs) = Some bs.
Proof.
  destruct (sextets_spec _ (binary_string_bytes bs)) as (Hlt & _ & Hpad & _).
  rewrite toB64Url_eq. unfold fromB64Url, replace_all.
  rewrite !map_map, length_map, Hpad.
  replace (map _ (b64_sextets (binary_string bs))) with (map b64_char (b64_sextets (binary_string bs))).
  2:{ apply map_ext_Forall. eapply Forall_impl; [exact Hlt|]. intros v Hv.
      symmetry. apply sextet_facts, Hv. }
  rewrite atob_btoa_body by apply binary_string_bytes.
  unfold binary_string. rewrite map_map. f_equal.
  rewrite map_ext with (g := fun b => b) by apply u8_to_N. apply map_id.
Qed.

(** Every code unit of [toB64Url] is in the base64url alphabet: neither
    [=], nor [.], nor white space. *)
Lemma toB64Url_chars (bs : bytes) :
  Forall (fun c => c <> 61 /\ c <> 46 /\ is_js_space c = false) (toB64Url bs).
Proof.
  destruct (sextets_spec _ (binary_string_bytes bs)) as (Hlt & _).
  rewrite toB64Url_eq. apply Forall_map. eapply Forall_impl; [exact Hlt|].
  intros v Hv. destruct (sextet_facts v Hv) as (_ & _ & _ & ? & ? & ? & _). auto.
Qed.

(* ================================================================== *)
(** * Strings: trim, split, startsWith *)

Lemma trim_start_app (t u : jsstr) :
  trim_start (t ++ u) = match trim_start t with [] => trim_start u | x => x ++ u end.
Proof.
  induction t as [|c r IH]; simpl; [reflexivity|].
  destruct (is_js_space c); [exact IH|reflexivity].
Qed.

Lemma trim_start_spaces (ws : jsstr) :
  Forall (fun c => is_js_space c = true) ws -> trim_start ws = [].
Proof. induction 1 as [|c r Hc _ IH]; simpl; [reflexivity|]. now rewrite Hc. Qed.

Lemma trim_start_nospace (s : jsstr) :
  Forall (fun c => is_js_space c = false) s -> trim_start s = s.
Proof. destruct 1 as [|c r Hc _]; simpl; [reflexivity|]. now rewrite Hc. Qed.

(** White space added on either side does not change [trim]. *)
Lemma trim_pad (ws1 t ws2 : jsstr) :
  Forall (fun c => is_js_space c = true) ws1 ->
  Forall (fun c => is_js_space c = true) ws2 ->
  trim (ws1 ++ t ++ ws2) = trim t.
Proof.
  intros H1 H2. unfold trim, trim_end.
  rewrite trim_start_app, (trim_start_spaces ws1 H1).
  rewrite trim_start_app.
  destruct (trim_start t) as [|c r] eqn:Et.
  - rewrite (trim_start_spaces ws2 H2). reflexivity.
  - rewrite rev_app_distr, trim_start_app,
      (trim_start_spaces (rev ws2)) by (apply Forall_rev; exact H2).
    reflexivity.
Qed.

Lemma trim_nospace (s : jsstr) :
  Forall (fun c => is_js_space c = false) s -> trim s = s.
Proof.
  intros Hs. unfold trim, trim_end.
  rewrite (trim_start_nospace s Hs).
  rewrite (trim_start_nospace (rev s)) by (apply Forall_rev; exact Hs).
  apply rev_involutive.
Qed.

Lemma trim_start_length (s : jsstr) : (length (trim_start s) <= length s)%nat.
Proof. induction s as [|c r IH]; simpl; [lia|]. destruct (is_js_space c); simpl; lia. Qed.

Lemma trim_start_fixed (s : jsstr) :
  trim_start s = s -> match s with [] => True | c :: _ => is_js_space c = false end.
Proof.
  destruct s as [|c r]; [auto|]. simpl. destruct (is_js_space c) eqn:Ec; [|auto].
  intros E. pose proof (trim_start_length r) as Hl. rewrite E in Hl. simpl in Hl. lia.
Qed.

Lemma trim_start_idem (s : jsstr) : trim_start (trim_start s) = trim_start s.
Proof.
  induction s as [|c r IH]; simpl; [reflexivity|].
  destruct (is_js_space c) eqn:Ec; [exact IH|]. simpl. rewrite Ec. reflexivity.
Qed.

Lemma trim_start_split (s : jsstr) :
  exists w, Forall (fun c => is_js_space c = true) w /\ s = w ++ trim_start s.
Proof.
  induction s as [|c r IH]; simpl; [exists []; auto|].
  destruct (is_js_space c) eqn:Ec.
  - destruct IH as (w & Hw & Hr). exists (c :: w). split; [constructor; auto|].
    simpl. f_equal. exact Hr.
  - exists []. auto.
Qed.

(** Dropping trailing white space keeps a non-white-space head. *)
Lemma trim_start_prefix (x : jsstr) :
  trim_start x = x -> trim_start (rev (trim_start (rev x))) = rev (trim_start (rev x)).
Proof.
  intros Hx. destruct (trim_start_split (rev x)) as (w & _ & Hw).
  assert (Hxy : x = rev (trim_start (rev x)) ++ rev w).
  { rewrite <- rev_app_distr, <- Hw, rev_involutive. reflexivity. }
  apply trim_start_fixed in Hx.
  destruct (rev (trim_start (rev x))) as [|c y] eqn:Ey; [reflexivity|].
  rewrite Hxy in Hx. simpl in Hx. simpl. rewrite Hx. reflexivity.
Qed.

Lemma trim_trim (s : jsstr) : trim (trim s) = trim s.
Proof.
  unfold trim, trim_end.
  rewrite (trim_start_prefix (trim_start s)) by apply trim_start_idem.
  rewrite rev_involutive, trim_start_idem. reflexivity.
Qed.

Lemma str_split_nosep (d : N) (a : jsstr) :
  Forall (fun c => c <> d) a -> str_split d a = [a].
Proof.
  induction 1 as [|c r Hc _ IH]; simpl; [reflexivity|].
  apply N.eqb_neq in Hc. rewrite Hc, IH. reflexivity.
Qed.

Lemma str_split_app (d : N) (a r : jsstr) :
  Forall (fun c => c <> d) a -> str_split d (a ++ d :: r) = a :: str_split d r.
Proof.
  induction 1 as [|c l Hc _ IH]; simpl.
  - rewrite N.eqb_refl. reflexivity.
  - apply N.eqb_neq in Hc. rewrite Hc, IH. reflexivity.
Qed.

Lemma startsWith_app (p x : jsstr) : startsWith (p ++ x) p = true.
Proof.
  induction p as [|c p IH]; simpl; [now destruct x|]. now rewrite N.eqb_refl, IH.
Qed.

(** The shape of every token [encryptText] and [encryptFile] build. *)
Lemma token_shape (hseg cseg : jsstr) :
  Forall (fun c => c <> 61 /\ c <> 46 /\ is_js_space c = false) hseg ->
  Forall (fun c => c <> 61 /\ c <> 46 /\ is_js_space c = false) cseg ->
  let token := PREFIX ++ hseg ++ [DOT] ++ cseg in
  trim token = token /\ startsWith token PREFIX = true
  /\ str_split DOT token = [js "PASCO1"; hseg; cseg].
Proof.
  intros Hh Hc token.
  assert (Hdots : forall l, Forall (fun c => c <> 61 /\ c <> 46 /\ is_js_space c = false) l ->
                       Forall (fun c => c <> DOT) l).
  { intros l Hl. eapply Forall_impl; [exact Hl|]. intros c (_ & ? & _). exact H. }
  assert (Hsp : forall l, Forall (fun c => c <> 61 /\ c <> 46 /\ is_js_space c = false) l ->
                     Forall (fun c => is_js_space c = false) l).
  { intros l Hl. eapply Forall_impl; [exact Hl|]. intros c (_ & _ & ?). exact H. }
  split; [|split].
  - apply trim_nospace. unfold token. apply Forall_app; split; [repeat constructor|].
    apply Forall_app; split; [apply Hsp, Hh|].
    apply Forall_app; split; [repeat constructor|apply Hsp, Hc].
  - apply startsWith_app.
  - unfold token, PREFIX.
    change (js "PASCO1.") with (js "PASCO1" ++ [DOT]).
    rewrite <- app_assoc. cbn [app].
    rewrite str_split_app by (unfold js; simpl; repeat constructor; discriminate).
    rewrite str_split_app by (apply Hdots, Hh).
    rewrite str_split_nosep by (apply Hdots, Hc).
    reflexivity.
Qed.

(* ================================================================== *)
(** * Running [decryptToken] *)

Lemma bind_inr {A B} (m : M A) (f : A -> M B) (t : list cev) (b : B) :
  bind m f = (t, inr b) ->
  exists t1 a t2, m = (t1, inr a) /\ f a = (t2, inr b) /\ t = t1 ++ t2.
Proof.
  destruct m as [t1 [e|a]]; simpl; [discriminate|].
  destruct (f a) as [t2 r] eqn:E. intros Heq. injection Heq as <- ->.
  exists t1, a, t2. auto.
Qed.

Lemma if_throw_inr {B} (c : bool) (e : err) (k : M B) (t : list cev) (b : B) :
  (if c then throw e else k) = (t, inr b) -> c = false /\ k = (t, inr b).
Proof. destruct c; [discriminate|auto]. Qed.

Lemma ret_inr {B} (a b : B) (t : list cev) : ret a = (t, inr b) -> t = [] /\ a = b.
Proof. intros Heq. injection Heq as <- ->. auto. Qed.

Lemma lift_inr {A} (e : err) (o : option A) (t : list cev) (a : A) :
  lift e o = (t, inr a) -> t = [] /\ o = Some a.
Proof. destruct o; simpl; [|discriminate]. intros Heq. injection Heq as <- ->. auto. Qed.

(** Peel a successful run apart, one step at a time. *)
Ltac inv_run H :=
  repeat match type of H with
  | bind _ _ = (_, inr _) =>
      let m := fresh "Hm" in
      apply bind_inr in H; destruct H as (?t & ?a & ?t & m & H & ?); cbv beta in H
  | (if _ then throw _ else _) = (_, inr _) =>
      let c := fresh "Hc" in
      apply if_throw_inr in H; destruct H as (c & H)
  end.

(** The header object a token of [encryptText] / [encryptFile] carries. *)
Lemma header_props (h : PascoHeader) :
  prop_of (header_json h) "v" = Some (JNum (h_v h))
  /\ prop_of (header_json h) "alg" = Some (JStr (h_alg h))
  /\ prop_of (header_json h) "kdf" = Some (JStr (h_kdf h))
  /\ prop_of (header_json h) "iter" = Some (JNum (h_iter h))
  /\ prop_of (header_json h) "salt" = Some (JStr (h_salt h))
  /\ prop_of (header_json h) "iv" = Some (JStr (h_iv h))
  /\ prop_of (header_json h) "kind" = Some (JStr (h_kind h)).
Proof. repeat split; reflexivity. Qed.

Lemma get_header (h : PascoHeader) k : get (header_json h) k = ret (prop_of (header_json h) k).
Proof. reflexivity. Qed.

Lemma is_str_js (s : string) : is_str (Some (JStr (js s))) s = true.
Proof. unfold is_str. apply bool_decide_eq_true. reflexivity. Qed.

(** Run a computation of [decryptToken] case by case: unfold its steps,
    then split on the innermost test the run is stuck on. *)
Ltac crunch_in H :=
  repeat (unfold bind, ret, throw, lift, emit, field_bytes, deriveKey_from, deriveKey,
                 sha256Hex, unpackHeader, get, negb in H;
          cbv beta iota in H;
          match type of H with
          | context [match ?x with _ => _ end] =>
              lazymatch x with
              | context [match _ with _ => _ end] => fail
              | _ => destruct x eqn:?
              end
          end).

Ltac crunch_goal :=
  repeat (unfold bind, ret, throw, lift, emit, field_bytes, deriveKey_from, deriveKey,
                 sha256Hex, unpackHeader, get, negb;
          cbv beta iota;
          match goal with
          | |- context [match ?x with _ => _ end] =>
              lazymatch x with
              | context [match _ with _ => _ end] => fail
              | _ => destruct x eqn:?
              end
          end).

Section Decrypt.
Context `{Host}.

(** A count in the range of [unsigned long] passes the conversion
    unchanged. *)
Lemma iterations_param_num (n : Z) :
  (0 <= n <= 4294967295)%Z -> iterations_param (Some (JNum n)) = Some n.
Proof.
  intros Hn. unfold iterations_param. cbn [json_to_integer].
  replace ((0 <=? n) && (n <=? 4294967295))%Z with true; [reflexivity|].
  symmetry. apply andb_true_intro. split; apply Z.leb_le; lia.
Qed.

Lemma iterations_param_range (o : option json) (n : Z) :
  iterations_param o = Some n -> (0 <= n <= 4294967295)%Z.
Proof.
  unfold iterations_param. destruct o as [j|]; [|discriminate].
  destruct (json_to_integer j) as [z|]; [|discriminate].
  destruct (0 <=? z)%Z eqn:E1; destruct (z <=? 4294967295)%Z eqn:E2;
    cbn [andb]; try discriminate.
  intros Heq. injection Heq as <-. apply Z.leb_le in E1, E2. lia.
Qed.

Lemma clamp_in_range (r : option Z) (d : Z) :
  (0 <= clamp_iterations r d <= 4294967295)%Z.
Proof. unfold clamp_iterations. lia. Qed.

(** Decrypting a token whose header is the packed [h] and whose
    ciphertext is AES-GCM output under the key PBKDF2 gives for the
    password. *)
Lemma decrypt_built (h : PascoHeader) (pw : jsstr) (salt iv pt : bytes) (key : Key) :
  header_roundtrip -> gcm_roundtrip ->
  h_v h = 1%Z -> h_alg h = js "AES-256-GCM" -> h_kdf h = js "PBKDF2-SHA256" ->
  h_salt h = toB64Url salt -> h_iv h = toB64Url iv ->
  (0 <= h_iter h <= 4294967295)%Z ->
  pbkdf2 (utf8Encode pw) salt (h_iter h) = Some key ->
  let ct := gcm_encrypt key iv pt in
  let fp := flat_map hex_byte (sha256 ct) in
  decryptToken (PREFIX ++ packHeader h ++ [DOT] ++ toB64Url ct) pw
  = ([EvImportKey; EvDeriveKey (h_iter h); EvDecrypt; EvDigest],
     inr (if bool_decide (h_kind h = js "text")
          then DText (header_json h) (utf8Decode pt) fp
          else DFile (header_json h) pt fp)).
Proof.
  intros HR HG Hv Halg Hkdf Hsalt Hiv Hrange Hkey ct fp.
  destruct (token_shape (packHeader h) (toB64Url ct)) as (Htrim & Hstart & Hsplit);
    [apply toB64Url_chars .. |].
  destruct (header_props h) as (Pv & Palg & Pkdf & Piter & Psalt & Piv & Pkind).
  unfold decryptToken. rewrite Htrim, Hstart, Hsplit. cbn [negb].
  unfold unpackHeader, packHeader. rewrite fromB64Url_toB64Url, HR.
  unfold lift at 1. cbn [bind ret]. rewrite !get_header.
  rewrite Pv, Palg, Pkdf, Piter, Psalt, Piv, Pkind, Hv, Halg, Hkdf, Hsalt, Hiv.
  unfold deriveKey_from, deriveKey, sha256Hex, emit, ct.
  do 4 (cbn [bind ret lift is_num Z.eqb Pos.eqb negb app field_bytes];
        rewrite ?is_str_js, ?fromB64Url_toB64Url, ?(iterations_param_num _ Hrange),
          ?Hkey, ?HG).
  unfold is_str.
  destruct (bool_decide (h_kind h = js "text")); reflexivity.
Qed.

(** A successful decryption read its ciphertext from the third segment
    and its fingerprint is the digest of that ciphertext. *)
Lemma decrypt_inr (token pw : jsstr) (t : list cev) (r : DecryptResult) :
  decryptToken token pw = (t, inr r) ->
  startsWith (trim token) PREFIX = true /\
  exists p0 p1 p2 ct, str_split DOT (trim token) = [p0; p1; p2]
    /\ fromB64Url p2 = Some ct /\ res_fingerprint r = flat_map hex_byte (sha256 ct).
Proof.
  unfold decryptToken. intros Hrun.
  destruct (startsWith (trim token) PREFIX); [|discriminate]. split; [reflexivity|].
  cbn [negb] in Hrun.
  destruct (str_split DOT (trim token)) as [|p0 [|p1 [|p2 [|p3 l]]]]; try discriminate.
  inv_run Hrun.
  match goal with Hx : lift ErrBase64 (fromB64Url p2) = (_, inr ?c) |- _ =>
    apply lift_inr in Hx as [_ Hct]; exists p0, p1, p2, c end.
  split; [reflexivity|]. split; [exact Hct|].
  match goal with Hx : sha256Hex _ = _ |- _ =>
    unfold sha256Hex, emit in Hx; inv_run Hx; apply ret_inr in Hx as [_ <-] end.
  match goal with Hx : (if is_str ?k "text" then _ else _) = _ |- _ =>
    destruct (is_str k "text"); apply ret_inr in Hx as [_ <-]; reflexivity end.
Qed.

(** The fingerprint a successful decryption returns is the one
    [fingerprintFromToken] computes. *)
Lemma fingerprint_of_decrypt (token pw : jsstr) (t : list cev) (r : DecryptResult) :
  decryptToken token pw = (t, inr r) ->
  fingerprintFromToken token = ([EvDigest], inr (res_fingerprint r)).
Proof.
  intros Hrun. destruct (decrypt_inr token pw t r Hrun)
    as (Hstart & p0 & p1 & p2 & ct & Hsplit & Hct & Hfp).
  unfold fingerprintFromToken. rewrite Hstart, Hsplit. cbn [negb].
  rewrite Hct, Hfp. reflexivity.
Qed.

Lemma encryptText_inr text opts salt iv createdAt t token hdr fp :
  encryptText text opts salt iv createdAt = (t, inr (token, hdr, fp)) ->
  let it := clamp_iterations (iterations opts) 220000 in
  exists key, pbkdf2 (utf8Encode (password opts)) salt it = Some key
  /\ hdr = {| h_v := 1; h_alg := js "AES-256-GCM"; h_kdf := js "PBKDF2-SHA256";
              h_iter := it; h_salt := toB64Url salt; h_iv := toB64Url iv;
              h_createdAt := createdAt; h_kind := js "text";
              h_filename := None; h_mime := None; h_size := None;
              h_note := trimmed_note (note opts) |}
  /\ token = PREFIX ++ packHeader hdr ++ [DOT]
               ++ toB64Url (gcm_encrypt key iv (utf8Encode text))
  /\ fp = flat_map hex_byte (sha256 (gcm_encrypt key iv (utf8Encode text)))
  /\ t = [EvImportKey; EvDeriveKey it; EvEncrypt; EvDigest].
Proof.
  intros Hrun it. unfold encryptText, deriveKey, sha256Hex, emit, lift in Hrun.
  fold it in Hrun.
  destruct (pbkdf2 (utf8Encode (password opts)) salt it) as [key|]; [|discriminate].
  cbn [bind ret app] in Hrun. injection Hrun as <- <- <- <-.
  exists key. repeat split; reflexivity.
Qed.

Lemma encryptFile_inr file opts salt iv createdAt t token hdr fp :
  encryptFile file opts salt iv createdAt = (t, inr (token, hdr, fp)) ->
  let it := clamp_iterations (iterations opts) 260000 in
  exists key, pbkdf2 (utf8Encode (password opts)) salt it = Some key
  /\ hdr = {| h_v := 1; h_alg := js "AES-256-GCM"; h_kdf := js "PBKDF2-SHA256";
              h_iter := it; h_salt := toB64Url salt; h_iv := toB64Url iv;
              h_createdAt := createdAt; h_kind := js "file";
              h_filename := Some (f_name file);
              h_mime := Some (match f_type file with
                              | [] => js "application/octet-stream"
                              | t => t end);
              h_size := Some (Z.of_nat (length (f_content file)));
              h_note := trimmed_note (note opts) |}
  /\ token = PREFIX ++ packHeader hdr ++ [DOT]
               ++ toB64Url (gcm_encrypt key iv (f_content file))
  /\ fp = flat_map hex_byte (sha256 (gcm_encrypt key iv (f_content file)))
  /\ t = [EvImportKey; EvDeriveKey it; EvEncrypt; EvDigest]
  /\ f_readable file = true.
Proof.
  intros Hrun it. unfold encryptFile, arrayBuffer, deriveKey, sha256Hex, emit, lift in Hrun.
  fold it in Hrun.
  destruct (pbkdf2 (utf8Encode (password opts)) salt it) as [key|]; [|discriminate].
  destruct (f_readable file) eqn:Er; [|discriminate].
  cbn [bind ret app] in Hrun. injection Hrun as <- <- <- <-.
  exists key. repeat split; reflexivity.
Qed.

End Decrypt.

(* ================================================================== *)
(** * The concrete host meets the round-trip assumptions *)

Module ToyHostFacts.
Import ToyHost.

Lemma u8_small (n : N) : n < 256 -> Byte.to_N (u8 n) = n.
Proof.
  intros Hn. unfold u8. rewrite N.mod_small by exact Hn.
  destruct (Byte.of_N n) as [b|] eqn:E; [apply Byte.to_of_N, E|].
  pose proof (Byte.to_of_N_option_map n) as Hm. rewrite E in Hm.
  destruct (n <=? 255) eqn:Hle; [discriminate|]. apply N.leb_gt in Hle. lia.
Qed.

Lemma dec_big_ones (acc : N) (k : nat) (rest : bytes) :
  dec_big acc (repeat Byte.x01 k ++ Byte.x00 :: rest) = Some (acc + N.of_nat k, rest).
Proof.
  revert acc. induction k as [|k IH]; intros acc; simpl.
  - rewrite N.add_0_r. reflexivity.
  - rewrite IH. f_equal. f_equal. lia.
Qed.

Lemma dec_units_enc (fuel : nat) (s : jsstr) :
  (length (toy_utf8Encode s) <= fuel)%nat -> dec_units fuel (toy_utf8Encode s) = s.
Proof.
  revert fuel. induction s as [|c s IH]; intros fuel Hf.
  - destruct fuel; reflexivity.
  - unfold toy_utf8Encode in *. cbn [flat_map] in *. rewrite length_app in Hf.
    unfold enc_unit in *. destruct (c <? 255) eqn:Ec.
    + apply N.ltb_lt in Ec. destruct fuel as [|f]; [simpl in Hf; lia|].
      cbn [app dec_units].
      replace (Byte.eqb (u8 c) Byte.xff) with false.
      2:{ symmetry. destruct (Byte.eqb (u8 c) Byte.xff) eqn:E; [|reflexivity].
          apply Byte.byte_dec_bl in E. apply (f_equal Byte.to_N) in E.
          rewrite u8_small in E by lia. simpl in E. lia. }
      rewrite u8_small by lia. rewrite IH by (simpl in Hf; lia). reflexivity.
    + apply N.ltb_ge in Ec. destruct fuel as [|f]; [simpl in Hf; lia|].
      cbn [app dec_units]. rewrite <- app_assoc. cbn [app].
      rewrite dec_big_ones. cbn [Byte.eqb].
      replace (255 + N.of_nat (N.to_nat (c - 255))) with c by lia.
      rewrite IH; [reflexivity|].
      cbn [length] in Hf. rewrite length_app, repeat_length in Hf. cbn [length] in Hf. lia.
Qed.

Lemma toy_utf8_roundtrip (s : jsstr) : toy_utf8Decode (toy_utf8Encode s) = s.
Proof. apply dec_units_enc. unfold toy_utf8Decode. lia. Qed.

Lemma firstn_skipn_app {A} (s r : list A) :
  firstn (length s) (s ++ r) = s /\ skipn (length s) (s ++ r) = r.
Proof. induction s as [|x s IH]; simpl; [auto|]. destruct IH as [-> ->]. auto. Qed.

Lemma parse_str_ser (s rest : list N) : parse_str (ser_str s ++ rest) = Some (s, rest).
Proof.
  unfold parse_str, ser_str. cbn [app]. rewrite Nat2N.id, length_app.
  destruct (firstn_skipn_app s rest) as [-> ->].
  replace (Nat.leb (length s) (length s + length rest)) with true
    by (symmetry; apply Nat.leb_le; lia).
  reflexivity.
Qed.

Lemma uint_of_digits (d : Decimal.uint) : uint_of (digits_of d) = d.
Proof. induction d; simpl; rewrite ?IHd; reflexivity. Qed.

Lemma parse_scalar_ser (v : json) (rest : list N) :
  match v with JStr _ | JNum _ => True | _ => False end ->
  parse_scalar (ser_scalar v ++ rest) = Some (v, rest).
Proof.
  destruct v as [| |z|s| |]; intros Hv; try contradiction.
  - unfold ser_scalar, ser_num. cbn [app parse_scalar N.eqb Pos.eqb].
    rewrite parse_str_ser, uint_of_digits, DecimalN.Unsigned.of_to.
    destruct (z <? 0)%Z eqn:Hz; cbn [N.eqb Pos.eqb].
    + apply Z.ltb_lt in Hz. do 3 f_equal. lia.
    + apply Z.ltb_ge in Hz. do 3 f_equal. lia.
  - unfold ser_scalar. cbn [app parse_scalar N.eqb]. rewrite parse_str_ser. reflexivity.
Qed.

Lemma parse_fields_ser (fs : list (jsstr * json)) (rest : list N) :
  Forall (fun kv => match snd kv with JStr _ | JNum _ => True | _ => False end) fs ->
  parse_fields (length fs)
    (flat_map (fun kv => ser_str (fst kv) ++ ser_scalar (snd kv)) fs ++ rest)
  = Some (fs, rest).
Proof.
  induction 1 as [|[k v] fs Hv _ IH]; [reflexivity|].
  cbn [flat_map length parse_fields fst snd]. rewrite <- !app_assoc.
  rewrite parse_str_ser, parse_scalar_ser by exact Hv. rewrite IH. reflexivity.
Qed.

Lemma header_fields_scalar (h : PascoHeader) :
  match header_json h with
  | JObj fs => Forall (fun kv => match snd kv with JStr _ | JNum _ => True | _ => False end) fs
  | _ => False
  end.
Proof.
  unfold header_json.
  repeat (apply Forall_app; split); [repeat constructor | ..];
    unfold opt_field;
    [destruct (h_filename h) | destruct (h_mime h) | destruct (h_size h) | destruct (h_note h)];
    simpl; repeat constructor.
Qed.

Lemma toy_gcm_roundtrip : gcm_roundtrip (H := host).
Proof.
  intros k iv pt. simpl. unfold toy_gcm_decrypt, toy_gcm_encrypt.
  rewrite (Byte.byte_dec_lb eq_refl). reflexivity.
Qed.

Lemma toy_header_roundtrip : header_roundtrip (H := host).
Proof.
  intros h.
  change (toy_json_parse (toy_utf8Decode (toy_utf8Encode (toy_json_stringify (header_json h))))
          = Some (header_json h)).
  rewrite toy_utf8_roundtrip.
  pose proof (header_fields_scalar h) as Hs.
  destruct (header_json h) as [| | | | |fs]; try contradiction.
  unfold toy_json_stringify, toy_json_parse. rewrite N.eqb_refl, Nat2N.id.
  rewrite <- (app_nil_r (flat_map _ fs)), parse_fields_ser by exact Hs.
  reflexivity.
Qed.

End ToyHostFacts.

(* ================================================================== *)
(** * Failing runs of [decryptToken] *)

Lemma bind_inl {A B} (m : M A) (f : A -> M B) (t : list cev) (e : err) :
  bind m f = (t, inl e) ->
  m = (t, inl e) \/ exists t1 a t2, m = (t1, inr a) /\ f a = (t2, inl e) /\ t = t1 ++ t2.
Proof.
  destruct m as [t1 [e1|a]]; simpl.
  - intros Heq. injection Heq as <- <-. auto.
  - destruct (f a) as [t2 r] eqn:E. intros Heq. injection Heq as <- ->.
    right. exists t1, a, t2. auto.
Qed.

Lemma if_throw_inl {B} (c : bool) (e' : err) (k : M B) (t : list cev) (e : err) :
  (if c then throw e' else k) = (t, inl e) -> (t = [] /\ e = e') \/ k = (t, inl e).
Proof. destruct c; [intros Heq; injection Heq as <- <-; auto | auto]. Qed.

Section Failing.
Context `{Host}.

Lemma unpackHeader_trace (p : jsstr) : fst (unpackHeader p) = [].
Proof. unfold unpackHeader. destruct (fromB64Url p); [|reflexivity]. unfold lift. destruct json_parse; reflexivity. Qed.

Lemma get_trace (j : json) (k : string) : fst (get j k) = [].
Proof. destruct j; reflexivity. Qed.

Lemma field_bytes_trace (o : option json) : fst (field_bytes o) = [].
Proof. destruct o as [[]|]; try reflexivity. simpl. unfold lift. destruct fromB64Url; reflexivity. Qed.

Lemma lift_trace {A} (e : err) (o : option A) : fst (lift e o) = [].
Proof. destruct o; reflexivity. Qed.

Lemma get_inl (j : json) (k : string) (t : list cev) (e : err) :
  get j k = (t, inl e) -> j = JNull /\ e = ErrHeaderNull.
Proof. destruct j; simpl; try discriminate. intros Heq. injection Heq as _ <-. auto. Qed.

Lemma field_bytes_inl (o : option json) (t : list cev) (e : err) :
  field_bytes o = (t, inl e) -> format_error e = false.
Proof.
  destruct o as [[]|]; simpl; try (intros Heq; injection Heq as _ <-; reflexivity).
  unfold lift. destruct fromB64Url; [discriminate|]. intros Heq; injection Heq as _ <-; reflexivity.
Qed.

Lemma lift_inl {A} (e' : err) (o : option A) (t : list cev) (e : err) :
  lift e' o = (t, inl e) -> e = e'.
Proof. destruct o; simpl; [discriminate|]. intros Heq. injection Heq as _ <-. reflexivity. Qed.

Lemma deriveKey_from_inl (pw : jsstr) (salt : bytes) (it : option json) (t : list cev) (e : err) :
  deriveKey_from pw salt it = (t, inl e) -> e = ErrKeyDerivation.
Proof.
  unfold deriveKey_from, deriveKey, emit, lift.
  destruct (iterations_param it); simpl; [|intros Heq; injection Heq as _ <-; reflexivity].
  destruct pbkdf2; simpl; [discriminate|]. intros Heq; injection Heq as _ <-; reflexivity.
Qed.

Lemma sha256Hex_inl (bs : bytes) (t : list cev) (e : err) :
  sha256Hex bs = (t, inl e) -> False.
Proof. unfold sha256Hex, emit. simpl. discriminate. Qed.

Lemma get_nonnull (j : json) (k : string) : j <> JNull -> get j k = ret (prop_of j k).
Proof. destruct j; [congruence | reflexivity ..]. Qed.

Lemma unpackHeader_inl (p : jsstr) (t : list cev) (e : err) :
  unpackHeader p = (t, inl e) -> t = [] /\ e = ErrHeaderSyntax.
Proof.
  unfold unpackHeader, lift. destruct (fromB64Url p); [destruct json_parse|];
    try discriminate; intros Heq; injection Heq as <- <-; auto.
Qed.

Lemma get_inr (j : json) (k : string) (t : list cev) (o : option json) :
  get j k = (t, inr o) -> o = prop_of j k.
Proof. destruct j; simpl; try discriminate; intros Heq; injection Heq as _ <-; reflexivity. Qed.

End Failing.

(* ================================================================== *)
(** * The lockout of [runDecrypt] *)

Section Runs.
Context `{Host}.

Lemma used_insert (m : attempts_map) (fp : jsstr) (n : Z) :
  used_attempts (<[fp := n]> m) fp = n.
Proof. unfold used_attempts. rewrite lookup_insert_eq. reflexivity. Qed.

Lemma fingerprint_nonempty (token : jsstr) (t : list cev) (fp : jsstr) :
  fingerprintFromToken token = (t, inr fp) -> token <> [].
Proof. intros Hfp ->. discriminate Hfp. Qed.

Lemma trim_nil : trim [] = [].
Proof. reflexivity. Qed.

(** [runDecrypt] when [decryptToken] succeeds. *)
Lemma runDecrypt_inr (token pw : jsstr) (m : attempts_map) (t : list cev) (res : DecryptResult) :
  trim pw <> [] -> decryptToken (trim token) pw = (t, inr res) ->
  runDecrypt token pw m =
    if (maxAttempts <=? used_attempts m (res_fingerprint res))%Z
    then (t, LockedOut (res_fingerprint res), m)
    else (t, shown res, <[res_fingerprint res := 0%Z]> m).
Proof.
  intros Hpw Hrun. unfold runDecrypt.
  assert (Htok : trim token <> []).
  { intros E. rewrite E in Hrun. discriminate Hrun. }
  rewrite (bool_decide_eq_false_2 _ Htok), (bool_decide_eq_false_2 _ Hpw), Hrun.
  reflexivity.
Qed.

(** [runDecrypt] when [decryptToken] throws. *)
Lemma runDecrypt_inl (token pw : jsstr) (m : attempts_map) (t : list cev) (e : err) :
  trim token <> [] -> trim pw <> [] -> decryptToken (trim token) pw = (t, inl e) ->
  runDecrypt token pw m =
    match fingerprintFromToken (trim token) with
    | (t', inr fp) =>
        (t ++ t', WrongKey (Z.max 0 (maxAttempts - (used_attempts m fp + 1))),
         <[fp := (used_attempts m fp + 1)%Z]> m)
    | (t', inl _) => (t ++ t', Failed e, m)
    end.
Proof.
  intros Htok Hpw Hrun. unfold runDecrypt.
  rewrite (bool_decide_eq_false_2 _ Htok), (bool_decide_eq_false_2 _ Hpw), Hrun.
  reflexivity.
Qed.

(** Failed attempts each add one to the counter. *)
Lemma runDecrypts_failures (token : jsstr) (ws : list jsstr) (m : attempts_map) (fp : jsstr) :
  snd (fingerprintFromToken (trim token)) = inr fp ->
  Forall (fun w => trim w <> [] /\ exists e, snd (decryptToken (trim token) w) = inl e) ws ->
  used_attempts (runDecrypts token ws m) fp = (used_attempts m fp + Z.of_nat (length ws))%Z.
Proof.
  intros Hfp Hws. revert m.
  induction Hws as [|w ws [Hw [e He]] _ IH]; intros m; simpl; [lia|].
  destruct (fingerprintFromToken (trim token)) as [tf rf] eqn:Ef.
  cbn [snd] in Hfp. subst rf.
  destruct (decryptToken (trim token) w) as [tw rw] eqn:Ew. cbn [snd] in He. subst rw.
  rewrite IH. unfold run_attempts.
  rewrite (runDecrypt_inl token w m tw e (fingerprint_nonempty _ _ _ Ef) Hw Ew), Ef.
  cbn [snd]. rewrite used_insert. lia.
Qed.

Lemma decrypt_trim (token pw : jsstr) : decryptToken (trim token) pw = decryptToken token pw.
Proof. unfold decryptToken. rewrite trim_trim. reflexivity. Qed.

Lemma fingerprint_trim (token : jsstr) : fingerprintFromToken (trim token) = fingerprintFromToken token.
Proof. unfold fingerprintFromToken. rewrite trim_trim. reflexivity. Qed.

(** A successful decryption derived a key, ran AES-GCM and SHA-256. *)
Lemma decrypt_inr_trace (token pw : jsstr) (t : list cev) (r : DecryptResult) :
  decryptToken token pw = (t, inr r) ->
  exists n, t = [EvImportKey; EvDeriveKey n; EvDecrypt; EvDigest].
Proof.
  intros Hrun. unfold decryptToken in Hrun. crunch_in Hrun; try discriminate Hrun.
  all: injection Hrun as <- _; eexists; reflexivity.
Qed.

(** A fingerprint that is computed costs one SHA-256. *)
Lemma fingerprint_inr_trace (token : jsstr) (t : list cev) (fp : jsstr) :
  fingerprintFromToken token = (t, inr fp) -> t = [EvDigest].
Proof.
  unfold fingerprintFromToken.
  destruct (startsWith (trim token) PREFIX); cbn [negb]; [|discriminate].
  destruct (str_split DOT (trim token)) as [|p0 [|p1 [|p2 [|p3 l]]]]; try discriminate.
  unfold lift, sha256Hex, emit. destruct (fromB64Url p2); cbn [bind ret throw app];
    [|discriminate].
  intros Heq. injection Heq as <- _. reflexivity.
Qed.

End Runs.

(* ================================================================== *)
(** * The claims *)

(** C1 (amended).  The lock is checked only after [decryptToken] has run,
    but a token whose fingerprint has used up its attempts is never shown
    decrypted and its counter never drops below the maximum.  With a
    non-blank password: when the decryption succeeds (the password is
    right) the page says "Locked" and leaves the map alone, after the key
    derivation, the AES-GCM decryption and the SHA-256 have all run;
    when it fails (a wrong password, among others) the page reports a
    wrong key with 0 attempts left and the counter goes up by one. *)
Theorem locked_token_never_shown `{Host} (token pw : jsstr) (m : attempts_map) (fp : jsstr) :
  snd (fingerprintFromToken token) = inr fp ->
  (maxAttempts <= used_attempts m fp)%Z ->
  let r := runDecrypt token pw m in
  (forall x, run_outcome r <> ShowText x) /\ (forall h b, run_outcome r <> ShowFile h b)
  /\ (maxAttempts <= used_attempts (run_attempts r) fp)%Z
  /\ (trim pw <> [] ->
      match decryptToken token pw with
      | (t, inr _) =>
          r = (t, LockedOut fp, m)
          /\ exists n, t = [EvImportKey; EvDeriveKey n; EvDecrypt; EvDigest]
      | (t, inl _) =>
          r = (t ++ [EvDigest], WrongKey 0, <[fp := (used_attempts m fp + 1)%Z]> m)
      end).
Proof.
  intros Hfp Hlock r. unfold r. rewrite <- fingerprint_trim in Hfp.
  destruct (fingerprintFromToken (trim token)) as [tf rf] eqn:Ef.
  cbn [snd] in Hfp. subst rf.
  pose proof (fingerprint_nonempty _ _ _ Ef) as Htok.
  pose proof (fingerprint_inr_trace _ _ _ Ef) as Htf. subst tf.
  destruct (bool_decide (trim pw = [])) eqn:Epw.
  - apply bool_decide_eq_true_1 in Epw. unfold runDecrypt.
    rewrite (bool_decide_eq_false_2 _ Htok), (bool_decide_eq_true_2 _ Epw).
    cbn [run_outcome run_attempts fst snd].
    split; [intros; discriminate|]. split; [intros; discriminate|].
    split; [lia|]. intros Hne. contradiction.
  - apply bool_decide_eq_false_1 in Epw.
    rewrite <- decrypt_trim.
    destruct (decryptToken (trim token) pw) as [t [e|res]] eqn:Ed.
    + rewrite (runDecrypt_inl token pw m t e Htok Epw Ed), Ef.
      cbn [run_outcome run_attempts fst snd]. rewrite used_insert.
      split; [intros; discriminate|]. split; [intros; discriminate|].
      split; [lia|]. intros _.
      replace (Z.max 0 (maxAttempts - (used_attempts m fp + 1))) with 0%Z
        by (unfold maxAttempts in *; lia).
      reflexivity.
    + pose proof (fingerprint_of_decrypt _ _ _ _ Ed) as Ef'. rewrite Ef in Ef'.
      injection Ef' as Hf.
      rewrite (runDecrypt_inr token pw m t res Epw Ed), <- Hf.
      replace (maxAttempts <=? used_attempts m fp)%Z with true
        by (symmetry; apply Z.leb_le; exact Hlock).
      cbn [run_outcome run_attempts fst snd].
      split; [intros; discriminate|]. split; [intros; discriminate|].
      split; [exact Hlock|]. intros _. split; [reflexivity|].
      exact (decrypt_inr_trace _ _ _ _ Ed).
Qed.

Lemma locked_token_never_shown_witness :
  let r := runDecrypt (H := ToyHost.host) Samples.text_token Samples.pw
             (<[Samples.text_fp := 5%Z]> ∅) in
  (forall x, run_outcome r <> ShowText x) /\ (forall h b, run_outcome r <> ShowFile h b)
  /\ (maxAttempts <= used_attempts (run_attempts r) Samples.text_fp)%Z
  /\ (trim Samples.pw <> [] ->
      match decryptToken (H := ToyHost.host) Samples.text_token Samples.pw with
      | (t, inr _) =>
          r = (t, LockedOut Samples.text_fp, <[Samples.text_fp := 5%Z]> ∅)
          /\ exists n, t = [EvImportKey; EvDeriveKey n; EvDecrypt; EvDigest]
      | (t, inl _) =>
          r = (t ++ [EvDigest], WrongKey 0,
               <[Samples.text_fp := (used_attempts (<[Samples.text_fp := 5%Z]> ∅)
                                      Samples.text_fp + 1)%Z]>
                 (<[Samples.text_fp := 5%Z]> ∅))
      end).
Proof.
  apply locked_token_never_shown; vm_compute; [reflexivity | discriminate].
Defined.

(** C1: the locked check comes after the cryptographic work.  The
    correct password on a token whose counter is at 5: [runDecrypt] derives
    the key and runs AES-GCM before it reports "Locked". *)
Lemma locked_check_after_crypto :
  let r := runDecrypt (H := ToyHost.host) Samples.text_token Samples.pw
             (<[Samples.text_fp := 5%Z]> ∅) in
  run_outcome r = LockedOut Samples.text_fp
  /\ run_trace r = [EvImportKey; EvDeriveKey 220000; EvDecrypt; EvDigest].
Proof. vm_compute. split; reflexivity. Qed.

(** C2.  Five failed attempts (wrong passwords) on one token bring its
    counter from any [n >= 0] to at least 5, and a sixth attempt with the
    correct password is then refused with "Locked"; below the maximum, a
    successful decryption shows the result and resets the counter to 0. *)
Theorem five_failures_lock_token `{Host} (token ok : jsstr) (wrongs : list jsstr)
    (m : attempts_map) (fp : jsstr) (t : list cev) (res : DecryptResult) :
  snd (fingerprintFromToken token) = inr fp ->
  (0 <= used_attempts m fp)%Z ->
  length wrongs = 5%nat ->
  Forall (fun w => trim w <> [] /\ snd (decryptToken token w) = inl ErrWrongKey) wrongs ->
  trim ok <> [] -> decryptToken token ok = (t, inr res) ->
  run_outcome (runDecrypt token ok (runDecrypts token wrongs m)) = LockedOut fp
  /\ (forall m', (used_attempts m' fp < maxAttempts)%Z ->
        run_outcome (runDecrypt token ok m') = shown res
        /\ used_attempts (run_attempts (runDecrypt token ok m')) fp = 0%Z).
Proof.
  intros Hfp Hm0 Hlen Hws Hok Hd.
  rewrite <- fingerprint_trim in Hfp. rewrite <- decrypt_trim in Hd.
  pose proof (fingerprint_of_decrypt _ _ _ _ Hd) as Ef.
  rewrite Ef in Hfp. cbn [snd] in Hfp. injection Hfp as Hf.
  split.
  - assert (Hcount : used_attempts (runDecrypts token wrongs m) fp = (used_attempts m fp + 5)%Z).
    { rewrite (runDecrypts_failures token wrongs m fp).
      - rewrite Hlen. reflexivity.
      - rewrite Ef, Hf. reflexivity.
      - eapply Forall_impl; [exact Hws|]. intros w [Hw Hdw].
        split; [exact Hw|]. exists ErrWrongKey. rewrite decrypt_trim. exact Hdw. }
    unfold run_outcome. rewrite (runDecrypt_inr token ok _ t res Hok Hd), Hf.
    replace (maxAttempts <=? used_attempts (runDecrypts token wrongs m) fp)%Z with true
      by (symmetry; apply Z.leb_le; unfold maxAttempts; lia).
    reflexivity.
  - intros m' Hlt. unfold run_outcome, run_attempts.
    rewrite (runDecrypt_inr token ok m' t res Hok Hd), Hf.
    replace (maxAttempts <=? used_attempts m' fp)%Z with false
      by (symmetry; apply Z.leb_gt; exact Hlt).
    cbn [fst snd]. rewrite used_insert. auto.
Qed.

Lemma five_failures_lock_token_witness :
  run_outcome (runDecrypt (H := ToyHost.host) Samples.text_token Samples.pw
                 (runDecrypts (H := ToyHost.host) Samples.text_token (repeat Samples.wrong_pw 5) ∅))
    = LockedOut Samples.text_fp
  /\ (forall m', (used_attempts m' Samples.text_fp < maxAttempts)%Z ->
        run_outcome (runDecrypt (H := ToyHost.host) Samples.text_token Samples.pw m')
          = shown Samples.text_result
        /\ used_attempts (run_attempts (runDecrypt (H := ToyHost.host)
              Samples.text_token Samples.pw m')) Samples.text_fp = 0%Z).
Proof.
  refine (five_failures_lock_token (H := ToyHost.host) Samples.text_token Samples.pw
           (repeat Samples.wrong_pw 5) ∅ Samples.text_fp
           (fst Samples.text_decrypt) Samples.text_result _ _ _ _ _ _).
  - vm_compute. reflexivity.
  - vm_compute. discriminate.
  - reflexivity.
  - apply List.Forall_forall. intros w Hw. apply repeat_spec in Hw. subst w.
    split; vm_compute; [discriminate | reflexivity].
  - vm_compute. discriminate.
  - vm_compute. reflexivity.
Defined.

(** C3 (amended).  What one click on "Decrypt" does to the attempt map,
    once a password is entered: a success resets the fingerprint's counter
    to 0 unless it is at the maximum (then the map is unchanged); every
    failure of [decryptToken] (wrong key, but also an unreadable or
    unsupported header) adds one to the counter of the fingerprint
    [fingerprintFromToken] computes; only a token without the [PASCO1.]
    prefix, without three segments or with an undecodable ciphertext
    segment leaves the map unchanged. *)
Theorem attempt_map_update `{Host} (token pw : jsstr) (m : attempts_map) :
  trim pw <> [] ->
  (forall t res, decryptToken token pw = (t, inr res) ->
     run_attempts (runDecrypt token pw m)
     = if (maxAttempts <=? used_attempts m (res_fingerprint res))%Z then m
       else <[res_fingerprint res := 0%Z]> m)
  /\ (forall t e t' fp, decryptToken token pw = (t, inl e) ->
        fingerprintFromToken token = (t', inr fp) ->
        run_attempts (runDecrypt token pw m) = <[fp := (used_attempts m fp + 1)%Z]> m)
  /\ (forall t e t' e', decryptToken token pw = (t, inl e) ->
        fingerprintFromToken token = (t', inl e') ->
        run_attempts (runDecrypt token pw m) = m).
Proof.
  intros Hpw. rewrite <- (decrypt_trim token pw), <- (fingerprint_trim token).
  split; [|split].
  - intros t res Hd. unfold run_attempts. rewrite (runDecrypt_inr token pw m t res Hpw Hd).
    destruct (maxAttempts <=? _)%Z; reflexivity.
  - intros t e t' fp Hd Hf. unfold run_attempts.
    rewrite (runDecrypt_inl token pw m t e (fingerprint_nonempty _ _ _ Hf) Hpw Hd), Hf.
    reflexivity.
  - intros t e t' e' Hd Hf. unfold run_attempts.
    destruct (bool_decide (trim token = [])) eqn:Et.
    + unfold runDecrypt. rewrite Et. reflexivity.
    + apply bool_decide_eq_false_1 in Et.
      rewrite (runDecrypt_inl token pw m t e Et Hpw Hd), Hf. reflexivity.
Qed.

Lemma attempt_map_update_witness :
  (forall t res, decryptToken (H := ToyHost.host) Samples.text_token Samples.wrong_pw = (t, inr res) ->
     run_attempts (runDecrypt (H := ToyHost.host) Samples.text_token Samples.wrong_pw ∅)
     = if (maxAttempts <=? used_attempts ∅ (res_fingerprint res))%Z then ∅
       else <[res_fingerprint res := 0%Z]> ∅)
  /\ (forall t e t' fp, decryptToken (H := ToyHost.host) Samples.text_token Samples.wrong_pw = (t, inl e) ->
        fingerprintFromToken (H := ToyHost.host) Samples.text_token = (t', inr fp) ->
        run_attempts (runDecrypt (H := ToyHost.host) Samples.text_token Samples.wrong_pw ∅)
        = <[fp := (used_attempts ∅ fp + 1)%Z]> ∅)
  /\ (forall t e t' e', decryptToken (H := ToyHost.host) Samples.text_token Samples.wrong_pw = (t, inl e) ->
        fingerprintFromToken (H := ToyHost.host) Samples.text_token = (t', inl e') ->
        run_attempts (runDecrypt (H := ToyHost.host) Samples.text_token Samples.wrong_pw ∅) = ∅).
Proof.
  refine (attempt_map_update (H := ToyHost.host) Samples.text_token Samples.wrong_pw ∅ _).
  vm_compute. discriminate.
Defined.

(** C3: a header that is not base64 is a format error, yet the attempt is
    charged.  ["PASCO1.!.AAAA"] fails with [ErrHeaderSyntax], and the
    counter of the fingerprint of its third segment goes from 0 to 1. *)
Lemma header_error_counts_attempt :
  snd (decryptToken (H := ToyHost.host) Samples.bad_header_token Samples.pw) = inl ErrHeaderSyntax
  /\ format_error ErrHeaderSyntax = true
  /\ used_attempts ∅ Samples.aaaa_fp = 0%Z
  /\ used_attempts (run_attempts (runDecrypt (H := ToyHost.host)
        Samples.bad_header_token Samples.pw ∅)) Samples.aaaa_fp = 1%Z.
Proof. vm_compute. repeat split. Qed.

(** C4.  Round trip: decrypting, with the same password, the token that
    [encryptText] or [encryptFile] produced gives back exactly the
    plaintext bytes that were encrypted.  For a file these are its
    content; for text they are [utf8Encode text], which the result
    returns as [utf8Decode (utf8Encode text)]. *)
Theorem encrypt_decrypt_roundtrip `{H : Host} :
  header_roundtrip -> gcm_roundtrip ->
  (forall text opts salt iv createdAt t token hdr fp,
     encryptText text opts salt iv createdAt = (t, inr (token, hdr, fp)) ->
     decryptToken token (password opts)
     = ([EvImportKey; EvDeriveKey (h_iter hdr); EvDecrypt; EvDigest],
        inr (DText (header_json hdr) (utf8Decode (utf8Encode text)) fp)))
  /\ (forall file opts salt iv createdAt t token hdr fp,
     encryptFile file opts salt iv createdAt = (t, inr (token, hdr, fp)) ->
     decryptToken token (password opts)
     = ([EvImportKey; EvDeriveKey (h_iter hdr); EvDecrypt; EvDigest],
        inr (DFile (header_json hdr) (f_content file) fp))).
Proof.
  intros HR HG. split.
  - intros text opts salt iv createdAt t token hdr fp Hrun.
    pose proof (encryptText_inr text opts salt iv createdAt t token hdr fp Hrun) as E.
    cbv zeta in E. destruct E as (key & Hkey & -> & -> & -> & _).
    match goal with |- decryptToken (PREFIX ++ packHeader ?h ++ _) _ = _ =>
      pose proof (decrypt_built h (password opts) salt iv (utf8Encode text) key HR HG
                    eq_refl eq_refl eq_refl eq_refl eq_refl (clamp_in_range _ _) Hkey) as D end.
    cbv zeta in D. rewrite D.
    rewrite bool_decide_eq_true_2 by reflexivity. reflexivity.
  - intros file opts salt iv createdAt t token hdr fp Hrun.
    pose proof (encryptFile_inr file opts salt iv createdAt t token hdr fp Hrun) as E.
    cbv zeta in E. destruct E as (key & Hkey & -> & -> & -> & _).
    match goal with |- decryptToken (PREFIX ++ packHeader ?h ++ _) _ = _ =>
      pose proof (decrypt_built h (password opts) salt iv (f_content file) key HR HG
                    eq_refl eq_refl eq_refl eq_refl eq_refl (clamp_in_range _ _) Hkey) as D end.
    cbv zeta in D. rewrite D.
    rewrite bool_decide_eq_false_2; [reflexivity|].
    cbn [h_kind]. intros Ek. vm_compute in Ek. discriminate Ek.
Qed.

Lemma encrypt_decrypt_roundtrip_witness :
  decryptToken (H := ToyHost.host) Samples.text_token (password Samples.opts)
  = ([EvImportKey; EvDeriveKey (h_iter Samples.text_header); EvDecrypt; EvDigest],
     inr (DText (header_json Samples.text_header)
            (@utf8Decode ToyHost.host (@utf8Encode ToyHost.host Samples.hello))
            Samples.text_fp))
  /\ decryptToken (H := ToyHost.host) Samples.file_token (password Samples.opts)
  = ([EvImportKey; EvDeriveKey (h_iter Samples.file_header); EvDecrypt; EvDigest],
     inr (DFile (header_json Samples.file_header) (f_content Samples.file) Samples.file_fp)).
Proof.
  destruct (encrypt_decrypt_roundtrip (H := ToyHost.host)
              ToyHostFacts.toy_header_roundtrip ToyHostFacts.toy_gcm_roundtrip) as [Ht Hf].
  split.
  - refine (Ht Samples.hello Samples.opts Samples.salt Samples.iv Samples.createdAt
              (fst Samples.text_run) Samples.text_token Samples.text_header Samples.text_fp _).
    vm_compute. reflexivity.
  - refine (Hf Samples.file Samples.opts Samples.salt Samples.iv Samples.createdAt
              (fst Samples.file_run) Samples.file_token Samples.file_header Samples.file_fp _).
    vm_compute. reflexivity.
Defined.

(** C5.  [decryptToken] rejects, with a format error and before any key
    derivation, decryption or hashing (an empty trace), a token without
    the [PASCO1.] prefix, one that does not split into three segments at
    the dots, one whose header segment does not decode and parse, and one
    whose parsed header has an unsupported version, algorithm or KDF. *)
Theorem format_errors_before_crypto `{H : Host} (token pw : jsstr) :
  (startsWith (trim token) PREFIX = false ->
     decryptToken token pw = ([], inl ErrMissingPrefix))
  /\ (startsWith (trim token) PREFIX = true ->
      length (str_split DOT (trim token)) <> 3%nat ->
      decryptToken token pw = ([], inl ErrTokenFormat))
  /\ (forall p0 p1 p2,
      startsWith (trim token) PREFIX = true ->
      str_split DOT (trim token) = [p0; p1; p2] ->
      (forall e, snd (unpackHeader p1) = inl e ->
         decryptToken token pw = ([], inl ErrHeaderSyntax))
      /\ (forall hj, snd (unpackHeader p1) = inr hj -> supported_header hj = false ->
         exists e, decryptToken token pw = ([], inl e) /\ format_error e = true)).
Proof.
  split; [|split].
  - intros Hs. unfold decryptToken. rewrite Hs. reflexivity.
  - intros Hs Hlen. unfold decryptToken. rewrite Hs. cbn [negb].
    destruct (str_split DOT (trim token)) as [|a [|b [|c [|d l]]]];
      try reflexivity. simpl in Hlen. congruence.
  - intros p0 p1 p2 Hs Hsplit. unfold decryptToken. rewrite Hs, Hsplit. cbn [negb].
    destruct (unpackHeader p1) as [tu [eu|hj']] eqn:Eu; cbn [snd].
    + split; [|discriminate]. intros e _.
      destruct (unpackHeader_inl p1 tu eu Eu) as [-> ->]. reflexivity.
    + split; [discriminate|]. intros hj Ehj Hsup. injection Ehj as <-.
      pose proof (unpackHeader_trace p1) as T. rewrite Eu in T. cbn [fst] in T. subst tu.
      assert (En : hj' = JNull \/ hj' <> JNull)
        by (destruct hj'; [left; reflexivity | right; discriminate ..]).
      destruct En as [En|En].
      * subst hj'. exists ErrHeaderNull. split; reflexivity.
      * cbn [bind]. rewrite !(get_nonnull hj' _ En). cbn [bind ret].
        unfold supported_header in Hsup.
        destruct (is_num (prop_of hj' "v") 1); cbn [negb bind ret throw app];
          [|exists ErrVersion; split; reflexivity].
        destruct (is_str (prop_of hj' "alg") "AES-256-GCM"); cbn [negb bind ret throw app];
          [|exists ErrAlgorithm; split; reflexivity].
        destruct (is_str (prop_of hj' "kdf") "PBKDF2-SHA256"); cbn [negb bind ret throw app];
          [discriminate Hsup|exists ErrKdf; split; reflexivity].
Qed.

Lemma format_errors_before_crypto_witness :
  decryptToken (H := ToyHost.host) (js "hello world") Samples.pw = ([], inl ErrMissingPrefix).
Proof.
  refine (proj1 (format_errors_before_crypto (H := ToyHost.host) (js "hello world") Samples.pw) _).
  vm_compute. reflexivity.
Defined.

(** C6.  When [decryptToken] succeeds on a token, [fingerprintFromToken]
    (no password, a single SHA-256) returns the same fingerprint; that
    fingerprint is the hex SHA-256 of the decoded third segment, whatever
    the header says; and every password that decrypts the token gets the
    same fingerprint. *)
Theorem fingerprint_password_free `{H : Host} (token pw : jsstr) (t : list cev) (r : DecryptResult) :
  decryptToken token pw = (t, inr r) ->
  fingerprintFromToken token = ([EvDigest], inr (res_fingerprint r))
  /\ (exists p0 p1 p2 ct, str_split DOT (trim token) = [p0; p1; p2]
        /\ fromB64Url p2 = Some ct /\ res_fingerprint r = flat_map hex_byte (sha256 ct))
  /\ (forall pw' t' r', decryptToken token pw' = (t', inr r') ->
        res_fingerprint r' = res_fingerprint r).
Proof.
  intros Hrun. split; [|split].
  - exact (fingerprint_of_decrypt token pw t r Hrun).
  - exact (proj2 (decrypt_inr token pw t r Hrun)).
  - intros pw' t' r' Hrun'.
    pose proof (fingerprint_of_decrypt token pw t r Hrun) as E.
    rewrite (fingerprint_of_decrypt token pw' t' r' Hrun') in E.
    congruence.
Qed.

Lemma fingerprint_password_free_witness :
  fingerprintFromToken (H := ToyHost.host) Samples.text_token
    = ([EvDigest], inr (res_fingerprint Samples.text_result))
  /\ (exists p0 p1 p2 ct, str_split DOT (trim Samples.text_token) = [p0; p1; p2]
        /\ fromB64Url p2 = Some ct
        /\ res_fingerprint Samples.text_result = flat_map hex_byte (@sha256 ToyHost.host ct))
  /\ (forall pw' t' r', decryptToken (H := ToyHost.host) Samples.text_token pw' = (t', inr r') ->
        res_fingerprint r' = res_fingerprint Samples.text_result).
Proof.
  refine (fingerprint_password_free (H := ToyHost.host) Samples.text_token Samples.pw
            (fst Samples.text_decrypt) Samples.text_result _).
  vm_compute. reflexivity.
Defined.

(** C7.  The iteration count is [max 50000 (min 600000 requested)], the
    requested one defaulting to 220000 for text and 260000 for files; it
    lies in [[50000, 600000]], it is the count PBKDF2 runs with, and it is
    the one the header records. *)
Theorem iterations_clamped `{H : Host} (text : jsstr) (file : File) (opts : EncryptOptions)
    (salt iv : bytes) (createdAt : jsstr) :
  let n1 := clamp_iterations (iterations opts) 220000 in
  let n2 := clamp_iterations (iterations opts) 260000 in
  n1 = Z.max 50000 (Z.min 600000 (match iterations opts with Some n => n | None => 220000 end))
  /\ n2 = Z.max 50000 (Z.min 600000 (match iterations opts with Some n => n | None => 260000 end))
  /\ (50000 <= n1 <= 600000)%Z /\ (50000 <= n2 <= 600000)%Z
  /\ firstn 2 (fst (encryptText text opts salt iv createdAt)) = [EvImportKey; EvDeriveKey n1]
  /\ firstn 2 (fst (encryptFile file opts salt iv createdAt)) = [EvImportKey; EvDeriveKey n2]
  /\ match snd (encryptText text opts salt iv createdAt) with
     | inr (_, hdr, _) => h_iter hdr = n1 | inl _ => True end
  /\ match snd (encryptFile file opts salt iv createdAt) with
     | inr (_, hdr, _) => h_iter hdr = n2 | inl _ => True end.
Proof.
  intros n1 n2.
  split; [reflexivity|]. split; [reflexivity|].
  split; [unfold n1, clamp_iterations; lia|].
  split; [unfold n2, clamp_iterations; lia|].
  unfold encryptText, encryptFile, arrayBuffer, deriveKey, sha256Hex, emit, lift.
  fold n1 n2.
  destruct (pbkdf2 (utf8Encode (password opts)) salt n1);
    destruct (pbkdf2 (utf8Encode (password opts)) salt n2);
    try destruct (f_readable file);
    cbn [bind ret throw app fst snd firstn]; repeat split.
Qed.

(** C8 (amended).  A file encrypted with [encryptFile] and decrypted with
    the same password comes back byte for byte, and the returned header
    records the file's name, its size in bytes, and as MIME type the
    file's [type], or ["application/octet-stream"] when that is empty. *)
Theorem file_roundtrip_metadata `{H : Host} (file : File) opts salt iv createdAt t token hdr fp :
  header_roundtrip -> gcm_roundtrip ->
  encryptFile file opts salt iv createdAt = (t, inr (token, hdr, fp)) ->
  exists t' hj, decryptToken token (password opts) = (t', inr (DFile hj (f_content file) fp))
    /\ prop_of hj "filename" = Some (JStr (f_name file))
    /\ prop_of hj "mime" = Some (JStr (match f_type file with
                                      | [] => js "application/octet-stream"
                                      | ty => ty end))
    /\ prop_of hj "size" = Some (JNum (Z.of_nat (length (f_content file)))).
Proof.
  intros HR HG Hrun.
  pose proof (encryptFile_inr file opts salt iv createdAt t token hdr fp Hrun) as E.
  cbv zeta in E. destruct E as (key & Hkey & -> & -> & -> & _).
  match goal with |- context [decryptToken (PREFIX ++ packHeader ?h ++ _) _] =>
    pose proof (decrypt_built h (password opts) salt iv (f_content file) key HR HG
                  eq_refl eq_refl eq_refl eq_refl eq_refl (clamp_in_range _ _) Hkey) as D end.
  cbv zeta in D. rewrite D.
  rewrite bool_decide_eq_false_2.
  - eexists _, _. split; [reflexivity|]. repeat split.
  - cbn [h_kind]. intros Ek. vm_compute in Ek. discriminate Ek.
Qed.

Lemma file_roundtrip_metadata_witness :
  exists t' hj, decryptToken (H := ToyHost.host) Samples.file_token (password Samples.opts)
                = (t', inr (DFile hj (f_content Samples.file) Samples.file_fp))
    /\ prop_of hj "filename" = Some (JStr (f_name Samples.file))
    /\ prop_of hj "mime" = Some (JStr (match f_type Samples.file with
                                      | [] => js "application/octet-stream"
                                      | ty => ty end))
    /\ prop_of hj "size" = Some (JNum (Z.of_nat (length (f_content Samples.file)))).
Proof.
  refine (file_roundtrip_metadata (H := ToyHost.host) Samples.file Samples.opts Samples.salt
            Samples.iv Samples.createdAt (fst Samples.file_run) Samples.file_token
            Samples.file_header Samples.file_fp
            ToyHostFacts.toy_header_roundtrip ToyHostFacts.toy_gcm_roundtrip _).
  vm_compute. reflexivity.
Defined.

(** C8: a file whose [type] is empty (the browser does not know it) comes
    back with the right bytes but with MIME type
    ["application/octet-stream"] in the header, not its own (empty) one. *)
Lemma file_mime_not_preserved :
  f_type Samples.file = []
  /\ match snd (decryptToken (H := ToyHost.host) Samples.file_token Samples.pw) with
     | inr (DFile hj bs _) =>
         bs = f_content Samples.file
         /\ prop_of hj "mime" = Some (JStr (js "application/octet-stream"))
         /\ prop_of hj "mime" <> Some (JStr (f_type Samples.file))
     | _ => False
     end.
Proof.
  split; [reflexivity|]. vm_compute.
  split; [reflexivity|]. split; [reflexivity|]. discriminate.
Qed.

(** C9.  [decryptToken] and [fingerprintFromToken] trim the token first:
    white space (as [String.prototype.trim] understands it) added before
    or after a token changes neither result. *)
Theorem trim_invariance `{H : Host} (ws1 t ws2 pw : jsstr) :
  Forall (fun c => is_js_space c = true) ws1 ->
  Forall (fun c => is_js_space c = true) ws2 ->
  decryptToken (ws1 ++ t ++ ws2) pw = decryptToken t pw
  /\ fingerprintFromToken (ws1 ++ t ++ ws2) = fingerprintFromToken t.
Proof.
  intros H1 H2. unfold decryptToken, fingerprintFromToken.
  rewrite (trim_pad ws1 t ws2 H1 H2). split; reflexivity.
Qed.

Lemma trim_invariance_witness :
  decryptToken (H := ToyHost.host) ([32; 9] ++ Samples.text_token ++ [10]) Samples.pw
    = decryptToken (H := ToyHost.host) Samples.text_token Samples.pw
  /\ fingerprintFromToken (H := ToyHost.host) ([32; 9] ++ Samples.text_token ++ [10])
    = fingerprintFromToken (H := ToyHost.host) Samples.text_token.
Proof.
  refine (trim_invariance (H := ToyHost.host) [32; 9] Samples.text_token [10] Samples.pw _ _).
  - repeat constructor.
  - repeat constructor.
Defined.

(** C10.  [decryptToken] does not check the header's [kind].  Take a
    token that passes the format checks (prefix, three segments, a header
    that parses to [hj] with version 1, AES-256-GCM and PBKDF2-SHA256,
    string [salt] and [iv] that decode, a decodable ciphertext [ct] and
    an [iter] that converts to a count [n]) and that authenticates (PBKDF2
    gives a key under which AES-GCM opens [ct] to [pt]).  If [hj.kind] is
    anything but the string ["text"] (absent, ["file"], or any other
    value) the decryption succeeds, after the usual work, with a file
    result holding [pt] and the digest of [ct]; it never fails. *)
Theorem unknown_kind_is_file `{H : Host} (token pw p0 p1 p2 : jsstr) (hj : json)
    (salt iv ct pt : bytes) (n : Z) (key : Key) :
  startsWith (trim token) PREFIX = true ->
  str_split DOT (trim token) = [p0; p1; p2] ->
  unpackHeader p1 = ([], inr hj) ->
  supported_header hj = true ->
  field_bytes (prop_of hj "salt") = ([], inr salt) ->
  field_bytes (prop_of hj "iv") = ([], inr iv) ->
  fromB64Url p2 = Some ct ->
  iterations_param (prop_of hj "iter") = Some n ->
  pbkdf2 (utf8Encode pw) salt n = Some key ->
  gcm_decrypt key iv ct = Some pt ->
  is_str (prop_of hj "kind") "text" = false ->
  decryptToken token pw
  = ([EvImportKey; EvDeriveKey n; EvDecrypt; EvDigest],
     inr (DFile hj pt (flat_map hex_byte (sha256 ct)))).
Proof.
  intros Hstart Hsplit Hhdr Hsup Hsalt Hiv Hct Hit Hkey Hpt Hkind.
  unfold supported_header in Hsup.
  apply andb_prop in Hsup as [Hsup Hkdf]. apply andb_prop in Hsup as [Hv Halg].
  assert (Hnn : hj <> JNull) by (intros ->; discriminate Hv).
  unfold decryptToken. rewrite Hstart, Hsplit. cbn [negb].
  rewrite Hhdr. cbn [bind app]. rewrite !(get_nonnull hj _ Hnn). cbn [bind ret app].
  rewrite Hv, Halg, Hkdf. cbn [negb bind ret app].
  rewrite Hsalt. cbn [bind app]. rewrite Hiv. cbn [bind app].
  unfold lift at 1. rewrite Hct. cbn [bind ret app].
  unfold deriveKey_from. rewrite Hit. unfold deriveKey, emit, lift.
  rewrite Hkey. cbn [bind ret app]. rewrite Hpt. unfold sha256Hex, emit.
  cbn [bind ret app]. rewrite Hkind. reflexivity.
Qed.

Lemma unknown_kind_is_file_witness :
  decryptToken (H := ToyHost.host) Samples.no_kind_token Samples.pw
  = ([EvImportKey; EvDeriveKey (Samples.iter_of Samples.no_kind_token); EvDecrypt; EvDigest],
     inr (DFile (Samples.hdr_of Samples.no_kind_token)
                (Samples.pt_of Samples.no_kind_token Samples.pw)
                (flat_map hex_byte
                   (@sha256 ToyHost.host (Samples.ct_of Samples.no_kind_token))))).
Proof.
  refine (unknown_kind_is_file (H := ToyHost.host) Samples.no_kind_token Samples.pw
            (Samples.seg Samples.no_kind_token 0) (Samples.seg Samples.no_kind_token 1)
            (Samples.seg Samples.no_kind_token 2) (Samples.hdr_of Samples.no_kind_token)
            (Samples.bytes_of (prop_of (Samples.hdr_of Samples.no_kind_token) "salt"))
            (Samples.bytes_of (prop_of (Samples.hdr_of Samples.no_kind_token) "iv"))
            (Samples.ct_of Samples.no_kind_token)
            (Samples.pt_of Samples.no_kind_token Samples.pw)
            (Samples.iter_of Samples.no_kind_token)
            (Samples.key_of Samples.no_kind_token Samples.pw) _ _ _ _ _ _ _ _ _ _ _);
    vm_compute; reflexivity.
Defined.

(* ================================================================== *)
(** * Further properties of crypto.ts and CryptoLab.tsx *)

(** ** base64url and the hex fingerprint *)

Lemma replace_all_length (a b : N) (s : jsstr) : length (replace_all a b s) = length s.
Proof. apply length_map. Qed.

Lemma b64_values_eq_sign (x y : jsstr) : b64_values (x ++ 61 :: y) = None.
Proof. induction x as [|c r IH]; simpl; [reflexivity|]. rewrite IH. destruct (b64_value c); reflexivity. Qed.

(** Base64url round trip: [fromB64Url] gives back exactly the bytes
    [toB64Url] encoded, for every byte array. *)
Theorem b64url_roundtrip (bs : bytes) : fromB64Url (toB64Url bs) = Some bs.
Proof. apply fromB64Url_toB64Url. Qed.

(** [toB64Url] writes only the characters [A-Z a-z 0-9 - _] (so never a
    dot, an [=] or white space), [ceil(4n/3)] of them for [n] bytes. *)
Theorem toB64Url_alphabet_length (bs : bytes) :
  Forall (fun c => (65 <= c <= 90) \/ (97 <= c <= 122) \/ (48 <= c <= 57) \/ c = 45 \/ c = 95)
    (toB64Url bs)
  /\ length (toB64Url bs) = ((4 * length bs + 2) / 3)%nat.
Proof.
  rewrite toB64Url_eq. split.
  - destruct (sextets_spec _ (binary_string_bytes bs)) as (Hlt & _).
    apply Forall_map. eapply Forall_impl; [exact Hlt|]. intros v Hv.
    unfold url_of, b64_char. cbv beta.
    repeat match goal with |- context [?a <? ?b] => destruct (N.ltb_spec a b) end;
    repeat match goal with |- context [?a =? ?b] => destruct (N.eqb_spec a b) end;
    lia.
  - rewrite length_map. unfold binary_string.
    assert (Hgen : forall s : list N, length (b64_sextets s) = ((4 * length s + 2) / 3)%nat).
    { fix IH 1. intros [| x [| y [| z r]]]; try reflexivity.
      cbn [b64_sextets length app]. rewrite IH. cbn [length].
      replace (4 * S (S (S (length r))) + 2)%nat with ((4 * length r + 2) + 4 * 3)%nat by lia.
      rewrite Nat.div_add by lia. lia. }
    rewrite Hgen, length_map. reflexivity.
Qed.

(** [fromB64Url] rejects (the [atob] call throws) every segment whose
    length leaves remainder 1 modulo 4, whatever its characters. *)
Theorem fromB64Url_length_1_mod_4 (s : jsstr) :
  (length s mod 4 = 1)%nat -> fromB64Url s = None.
Proof.
  intros Hlen. unfold fromB64Url, restore_padding.
  replace ((length s + 3) mod 4)%nat with 0%nat
    by (rewrite Nat.Div0.add_mod; rewrite Hlen; reflexivity).
  cbn [skipn]. unfold atob.
  set (x := List.filter (fun c => negb (is_ascii_space c))
              (replace_all 95 47 (replace_all 45 43 s))).
  rewrite List.filter_app. cbn [List.filter is_ascii_space N.eqb Pos.eqb negb orb].
  fold x.
  destruct (Nat.eqb (length (x ++ [61; 61; 61]) mod 4) 0).
  - unfold strip_padding. rewrite rev_app_distr. cbn [rev app N.eqb Pos.eqb andb].
    rewrite rev_involutive.
    destruct (Nat.eqb (length (x ++ [61]) mod 4) 1); [reflexivity|].
    rewrite b64_values_eq_sign. reflexivity.
  - destruct (Nat.eqb (length (x ++ [61; 61; 61]) mod 4) 1); [reflexivity|].
    rewrite b64_values_eq_sign. reflexivity.
Qed.

(** [fromB64Url] also takes the standard base64 characters [+] and [/]:
    a segment decodes the same when each [-] is written [+] and each [_]
    is written [/]. *)
Theorem fromB64Url_standard_alphabet (s : jsstr) :
  fromB64Url (replace_all 45 43 (replace_all 95 47 s)) = fromB64Url s.
Proof.
  unfold fromB64Url. rewrite !replace_all_length.
  replace (replace_all 95 47 (replace_all 45 43 (replace_all 45 43 (replace_all 95 47 s))))
    with (replace_all 95 47 (replace_all 45 43 s)); [reflexivity|].
  unfold replace_all. rewrite !map_map. apply map_ext. intros c.
  destruct (N.eqb_spec c 45); [subst; reflexivity|].
  destruct (N.eqb_spec c 95); [subst; reflexivity|].
  apply N.eqb_neq in n, n0. rewrite ?n, ?n0, ?n, ?n0, ?n, ?n0. reflexivity.
Qed.

Lemma hex_digit_range (d : N) : d < 16 ->
  (48 <= hex_digit d <= 57 /\ d < 10) \/ (97 <= hex_digit d <= 102 /\ 10 <= d).
Proof. intros Hd. unfold hex_digit. destruct (N.ltb_spec d 10); lia. Qed.

Lemma hex_digit_inj (d e : N) : d < 16 -> e < 16 -> hex_digit d = hex_digit e -> d = e.
Proof.
  intros Hd He Heq. pose proof (hex_digit_range d Hd). pose proof (hex_digit_range e He).
  unfold hex_digit in *. destruct (N.ltb_spec d 10), (N.ltb_spec e 10); lia.
Qed.

Lemma hex_byte_inj (a b : Byte.byte) : hex_byte a = hex_byte b -> a = b.
Proof.
  unfold hex_byte. intros Heq. injection Heq as H1 H2.
  pose proof (Byte.to_N_bounded a) as Ba. pose proof (Byte.to_N_bounded b) as Bb.
  apply hex_digit_inj in H1; [|apply N.Div0.div_lt_upper_bound; lia ..].
  apply hex_digit_inj in H2; [|apply N.mod_lt; lia ..].
  assert (Byte.to_N a = Byte.to_N b).
  { rewrite (N.div_mod (Byte.to_N a) 16), (N.div_mod (Byte.to_N b) 16) by lia. lia. }
  pose proof (Byte.of_to_N a) as Ea. rewrite H in Ea. rewrite Byte.of_to_N in Ea.
  congruence.
Qed.

(** [sha256Hex] writes two lowercase hex digits per digest byte, and
    different digests give different fingerprints. *)
Theorem sha256Hex_format `{H : Host} (bs : bytes) :
  fst (sha256Hex bs) = [EvDigest]
  /\ (exists fp, snd (sha256Hex bs) = inr fp
      /\ length fp = (2 * length (sha256 bs))%nat
      /\ Forall (fun c => (48 <= c <= 57) \/ (97 <= c <= 102)) fp)
  /\ (forall bs', snd (sha256Hex bs') = snd (sha256Hex bs) -> sha256 bs' = sha256 bs).
Proof.
  unfold sha256Hex, emit. cbn [bind ret app fst snd]. split; [reflexivity|]. split.
  - eexists. split; [reflexivity|]. split.
    + induction (sha256 bs) as [|b r IH]; simpl; [reflexivity|]. rewrite IH. lia.
    + apply Forall_flat_map, Forall_forall. intros b _.
      pose proof (Byte.to_N_bounded b).
      assert (Hq : Byte.to_N b / 16 < 16) by (apply N.Div0.div_lt_upper_bound; lia).
      assert (Hr : Byte.to_N b mod 16 < 16) by (apply N.mod_lt; lia).
      unfold hex_byte. constructor; [|constructor; [|constructor]].
      * destruct (hex_digit_range _ Hq) as [[? _]|[? _]]; auto.
      * destruct (hex_digit_range _ Hr) as [[? _]|[? _]]; auto.
  - intros bs' Heq. injection Heq. generalize (sha256 bs) as l. generalize (sha256 bs') as l'.
    induction l' as [|a r IH]; intros [|b l]; simpl; try discriminate; [reflexivity|].
    intros E. unfold hex_byte at 1 2 in E. cbn [app] in E.
    injection E as E1 E2 E3.
    assert (hex_byte a = hex_byte b) as Hab by (unfold hex_byte; congruence).
    apply hex_byte_inj in Hab. subst b. f_equal. apply IH. exact E3.
Qed.

(** ** Encrypting *)

Section EncryptFacts.
Context `{Host}.

Lemma fingerprint_built (hdr : PascoHeader) (ct : bytes) :
  fingerprintFromToken (PREFIX ++ packHeader hdr ++ [DOT] ++ toB64Url ct)
  = ([EvDigest], inr (flat_map hex_byte (sha256 ct))).
Proof.
  destruct (token_shape (packHeader hdr) (toB64Url ct)) as (Htrim & Hstart & Hsplit);
    [apply toB64Url_chars .. |].
  unfold fingerprintFromToken. rewrite Htrim, Hstart, Hsplit. cbn [negb].
  rewrite fromB64Url_toB64Url. reflexivity.
Qed.

Lemma built_shape (hdr : PascoHeader) (ct : bytes) :
  let token := PREFIX ++ packHeader hdr ++ [DOT] ++ toB64Url ct in
  trim token = token /\ startsWith token PREFIX = true
  /\ length (str_split DOT token) = 3%nat.
Proof.
  destruct (token_shape (packHeader hdr) (toB64Url ct)) as (Htrim & Hstart & Hsplit);
    [apply toB64Url_chars .. |].
  cbv zeta. rewrite Hsplit. auto.
Qed.

End EncryptFacts.

(** A token made by [encryptText] is already trimmed, starts with
    [PASCO1.], has three dot-separated segments, and
    [fingerprintFromToken] gives it the fingerprint [encryptText]
    returned, with one SHA-256 and no key derivation. *)
Theorem encryptText_token_fingerprint `{H : Host} text opts salt iv createdAt t token hdr fp :
  encryptText text opts salt iv createdAt = (t, inr (token, hdr, fp)) ->
  trim token = token /\ startsWith token PREFIX = true
  /\ length (str_split DOT token) = 3%nat
  /\ fingerprintFromToken token = ([EvDigest], inr fp).
Proof.
  intros Hrun. destruct (encryptText_inr _ _ _ _ _ _ _ _ _ Hrun)
    as (key & _ & _ & -> & -> & _).
  destruct (built_shape hdr (gcm_encrypt key iv (utf8Encode text))) as (? & ? & ?).
  rewrite fingerprint_built. auto.
Qed.

(** The same for a token made by [encryptFile]. *)
Theorem encryptFile_token_fingerprint `{H : Host} file opts salt iv createdAt t token hdr fp :
  encryptFile file opts salt iv createdAt = (t, inr (token, hdr, fp)) ->
  trim token = token /\ startsWith token PREFIX = true
  /\ length (str_split DOT token) = 3%nat
  /\ fingerprintFromToken token = ([EvDigest], inr fp).
Proof.
  intros Hrun. destruct (encryptFile_inr _ _ _ _ _ _ _ _ _ Hrun)
    as (key & _ & _ & -> & -> & _).
  destruct (built_shape hdr (gcm_encrypt key iv (f_content file))) as (? & ? & ?).
  rewrite fingerprint_built. auto.
Qed.

(** [encryptText] and [encryptFile] either succeed after importing the
    password, deriving the key with the clamped count, encrypting and
    hashing, or they fail right after the derivation step: with the
    key-derivation error when PBKDF2 rejects, or, for a file, with the
    read error when PBKDF2 succeeded and [file.arrayBuffer()] rejects;
    they throw no other error. *)
Theorem encrypt_outcomes `{H : Host} (text : jsstr) (file : File) (opts : EncryptOptions)
    (salt iv : bytes) (createdAt : jsstr) :
  let itT := clamp_iterations (iterations opts) 220000 in
  let itF := clamp_iterations (iterations opts) 260000 in
  ((exists r, encryptText text opts salt iv createdAt
              = ([EvImportKey; EvDeriveKey itT; EvEncrypt; EvDigest], inr r))
   \/ (encryptText text opts salt iv createdAt
       = ([EvImportKey; EvDeriveKey itT], inl ErrKeyDerivation)
       /\ pbkdf2 (utf8Encode (password opts)) salt itT = None))
  /\ ((f_readable file = true
       /\ exists r, encryptFile file opts salt iv createdAt
                   = ([EvImportKey; EvDeriveKey itF; EvEncrypt; EvDigest], inr r))
      \/ (encryptFile file opts salt iv createdAt
          = ([EvImportKey; EvDeriveKey itF], inl ErrKeyDerivation)
          /\ pbkdf2 (utf8Encode (password opts)) salt itF = None)
      \/ (encryptFile file opts salt iv createdAt
          = ([EvImportKey; EvDeriveKey itF], inl ErrFileRead)
          /\ f_readable file = false
          /\ exists k, pbkdf2 (utf8Encode (password opts)) salt itF = Some k)).
Proof.
  intros itT itF.
  unfold encryptText, encryptFile, arrayBuffer, deriveKey, sha256Hex, emit, lift.
  fold itT itF. split.
  - destruct (pbkdf2 (utf8Encode (password opts)) salt itT); cbn [bind ret throw app].
    + left. eexists. reflexivity.
    + right. auto.
  - destruct (pbkdf2 (utf8Encode (password opts)) salt itF) as [k|];
      cbn [bind ret throw app].
    + destruct (f_readable file) eqn:Er; cbn [bind ret throw app].
      * left. split; [reflexivity|]. eexists. reflexivity.
      * right; right. repeat split. exists k. reflexivity.
    + right; left. auto.
Qed.

Lemma trim_start_head (s : jsstr) c r : trim_start s = c :: r -> is_js_space c = false.
Proof.
  induction s as [|a s IH]; simpl; [discriminate|].
  destruct (is_js_space a) eqn:E; [exact IH|]. intros Heq. injection Heq as <- _. exact E.
Qed.

Lemma trimmed_note_spec (n : option jsstr) (s : jsstr) :
  trimmed_note n = Some s <-> exists s0, n = Some s0 /\ trim s0 = s /\ s <> [].
Proof.
  unfold trimmed_note. split.
  - destruct n as [s0|]; [|discriminate].
    destruct (trim s0) as [|c r] eqn:E; [discriminate|].
    intros Heq. injection Heq as <-. exists s0. repeat split; [assumption|discriminate].
  - intros (s0 & -> & <- & Hne). destruct (trim s0); [contradiction|reflexivity].
Qed.

Lemma note_field_spec (n : option jsstr) (o : option json) :
  o = option_map JStr (trimmed_note n) ->
  (forall s, o = Some (JStr s) <-> exists s0, n = Some s0 /\ trim s0 = s /\ s <> [])
  /\ (o = None <-> forall s0, n = Some s0 -> trim s0 = [])
  /\ (forall s, o = Some (JStr s) -> trim s = s).
Proof.
  intros ->. split; [|split].
  - intros s. rewrite <- trimmed_note_spec.
    destruct (trimmed_note n); cbn; split; congruence.
  - unfold trimmed_note. destruct n as [s0|]; cbn.
    + destruct (trim s0) eqn:E; cbn; split.
      * intros _ s1 Hs. injection Hs as <-. exact E.
      * reflexivity.
      * discriminate.
      * intros Hall. specialize (Hall s0 eq_refl). congruence.
    + split; [intros _ s0 Hs; discriminate|reflexivity].
  - intros s Hs. destruct (trimmed_note n) as [s'|] eqn:E; [|discriminate].
    injection Hs as ->. apply trimmed_note_spec in E as (s0 & _ & <- & _).
    apply trim_trim.
Qed.

(** The note a header carries is the option's note with white space
    trimmed from both ends: an absent or blank note puts no [note] key
    in the header at all, and a stored note is never empty and has no
    surrounding white space. *)
Theorem encrypt_note_trimmed `{H : Host} text file opts salt iv createdAt t token hdr fp :
  (encryptText text opts salt iv createdAt = (t, inr (token, hdr, fp))
   \/ encryptFile file opts salt iv createdAt = (t, inr (token, hdr, fp))) ->
  (forall s, prop_of (header_json hdr) "note" = Some (JStr s)
             <-> exists s0, note opts = Some s0 /\ trim s0 = s /\ s <> [])
  /\ (prop_of (header_json hdr) "note" = None
      <-> forall s0, note opts = Some s0 -> trim s0 = [])
  /\ (forall s, prop_of (header_json hdr) "note" = Some (JStr s) -> trim s = s).
Proof.
  intros [Hrun|Hrun]; apply note_field_spec.
  - destruct (encryptText_inr _ _ _ _ _ _ _ _ _ Hrun) as (key & _ & -> & _).
    destruct (trimmed_note (note opts)); reflexivity.
  - destruct (encryptFile_inr _ _ _ _ _ _ _ _ _ Hrun) as (key & _ & -> & _).
    destruct (trimmed_note (note opts)); reflexivity.
Qed.

(** ** Decrypting *)

(** [fingerprintFromToken] never derives a key: it fails before any
    cryptographic work (missing prefix, wrong segment count, or an
    undecodable third segment), or it succeeds after exactly one
    SHA-256. *)
Theorem fingerprintFromToken_cost `{H : Host} (token : jsstr) :
  (exists e, fingerprintFromToken token = ([], inl e)
             /\ (e = ErrMissingPrefix \/ e = ErrTokenFormat \/ e = ErrBase64))
  \/ (exists fp, fingerprintFromToken token = ([EvDigest], inr fp)).
Proof.
  unfold fingerprintFromToken.
  destruct (startsWith (trim token) PREFIX); cbn [negb];
    [|left; eexists; split; [reflexivity|auto]].
  destruct (str_split DOT (trim token)) as [|p0 [|p1 [|p2 [|p3 l]]]];
    try (left; eexists; split; [reflexivity|auto]; fail).
  unfold lift, sha256Hex, emit. destruct (fromB64Url p2); cbn [bind ret throw app].
  - right. eexists. reflexivity.
  - left. eexists. split; [reflexivity|auto].
Qed.

(** A successful [decryptToken] returns a header with version 1,
    AES-256-GCM and PBKDF2-SHA256 whose [iter] converts, as WebIDL's
    [unsigned long], to a count [n] in [[0, 2^32 - 1]]; its trace is
    import, PBKDF2 with [n] iterations, AES-GCM decrypt and SHA-256; and
    the result is text exactly when the header's [kind] is ["text"]. *)
Theorem decrypt_success_shape `{H : Host} (token pw : jsstr) (t : list cev) (r : DecryptResult) :
  decryptToken token pw = (t, inr r) ->
  supported_header (res_header r) = true
  /\ (exists n, iterations_param (prop_of (res_header r) "iter") = Some n
                /\ (0 <= n <= 4294967295)%Z
                /\ t = [EvImportKey; EvDeriveKey n; EvDecrypt; EvDigest])
  /\ (is_str (prop_of (res_header r) "kind") "text" = true
      <-> exists hj text fp, r = DText hj text fp).
Proof.
  intros Hrun. unfold decryptToken in Hrun. crunch_in Hrun; try discriminate Hrun.
  all: injection Hrun as <- <-; cbn [res_header app].
  all: unfold supported_header;
       repeat match goal with E : _ = true |- _ => rewrite E end;
       repeat match goal with E : _ = false |- _ => rewrite E end.
  all: split; [reflexivity|split; [eexists; split; [eassumption|split;
         [eapply iterations_param_range; eassumption|reflexivity]]|]].
  all: split; [intros Hk; first [discriminate Hk|do 3 eexists; reflexivity]
              |intros (? & ? & ? & ?); first [reflexivity|discriminate]].
Qed.

(** What a failed [decryptToken] has already done: a format, field-type
    or base64 error comes before any cryptographic work.  Every other
    failure comes from a token of three segments whose header segment
    parses to [hj]: a key-derivation error right after importing the
    password when [hj.iter] does not convert to an [unsigned long];
    otherwise, with [n] the converted count, a key-derivation error
    after PBKDF2 with [n] iterations, or the wrong-key error after that
    PBKDF2 and the AES-GCM decryption, and no SHA-256 is run. *)
Theorem decrypt_failure_cost `{H : Host} (token pw : jsstr) (t : list cev) (e : err) :
  decryptToken token pw = (t, inl e) ->
  (t = [] /\ (format_error e = true \/ e = ErrFieldType \/ e = ErrBase64))
  \/ exists p0 p1 p2 hj,
       str_split DOT (trim token) = [p0; p1; p2] /\ unpackHeader p1 = ([], inr hj)
       /\ ((e = ErrKeyDerivation /\ t = [EvImportKey]
            /\ iterations_param (prop_of hj "iter") = None)
           \/ exists n, iterations_param (prop_of hj "iter") = Some n
              /\ ((e = ErrKeyDerivation /\ t = [EvImportKey; EvDeriveKey n])
                  \/ (e = ErrWrongKey /\ t = [EvImportKey; EvDeriveKey n; EvDecrypt]))).
Proof.
  intros Hrun. unfold decryptToken in Hrun.
  destruct (startsWith (trim token) PREFIX); cbn [negb] in Hrun;
    [|injection Hrun as <- <-; left; auto].
  destruct (str_split DOT (trim token)) as [|p0 [|p1 [|p2 [|p3 l]]]] eqn:Esp;
    try (injection Hrun as <- <-; left; auto; fail).
  destruct (unpackHeader p1) as [th [eh|hj]] eqn:Eu.
  { apply unpackHeader_inl in Eu as [-> ->]. cbn [bind] in Hrun.
    injection Hrun as <- <-. left; auto. }
  pose proof (unpackHeader_trace p1) as Et. rewrite Eu in Et. cbn [fst] in Et. subst th.
  cbn [bind app] in Hrun.
  all: crunch_in Hrun; try discriminate Hrun.
  all: injection Hrun as <- <-; cbn [app].
  all: first
    [ left; split; [reflexivity|first [left; reflexivity|right; left; reflexivity
                                      |right; right; reflexivity]]
    | right; do 4 eexists; split; [reflexivity|split; [eassumption|]];
      first [ left; repeat split; assumption
            | right; eexists; split; [eassumption|];
              first [left; split; reflexivity|right; split; reflexivity] ] ].
Qed.

(** Only [v], [alg], [kdf], [iter], [salt], [iv] and [kind] of the
    header take part in decryption: a token whose header differs in
    [createdAt], [filename], [mime], [size] or [note] decrypts with the
    same trace and the same outcome, and the result carries the altered
    header.  None of these fields is authenticated. *)
Theorem header_metadata_unauthenticated `{H : Host} (h : PascoHeader) (ct : bytes) (pw : jsstr)
    (createdAt' : jsstr) (filename' mime' note' : option jsstr) (size' : option Z) :
  header_roundtrip ->
  let h' := {| h_v := h_v h; h_alg := h_alg h; h_kdf := h_kdf h; h_iter := h_iter h;
               h_salt := h_salt h; h_iv := h_iv h; h_createdAt := createdAt';
               h_kind := h_kind h; h_filename := filename'; h_mime := mime';
               h_size := size'; h_note := note' |} in
  decryptToken (PREFIX ++ packHeader h' ++ [DOT] ++ toB64Url ct) pw
  = let (t, r) := decryptToken (PREFIX ++ packHeader h ++ [DOT] ++ toB64Url ct) pw in
    (t, match r with inl e => inl e | inr res => inr (with_header (header_json h') res) end).
Proof.
  intros HR h'.
  destruct (token_shape (packHeader h) (toB64Url ct)) as (Htrim & Hstart & Hsplit);
    [apply toB64Url_chars .. |].
  destruct (token_shape (packHeader h') (toB64Url ct)) as (Htrim' & Hstart' & Hsplit');
    [apply toB64Url_chars .. |].
  unfold decryptToken. rewrite Htrim, Hstart, Hsplit, Htrim', Hstart', Hsplit'.
  cbn [negb]. unfold unpackHeader, packHeader. rewrite !fromB64Url_toB64Url, !HR.
  cbn [lift bind ret]. rewrite !get_header. cbn [bind ret].
  destruct (header_props h) as (Pv & Palg & Pkdf & Piter & Psalt & Piv & Pkind).
  destruct (header_props h') as (Pv' & Palg' & Pkdf' & Piter' & Psalt' & Piv' & Pkind').
  rewrite Pv, Palg, Pkdf, Piter, Psalt, Piv, Pkind, Pv', Palg', Pkdf', Piter', Psalt', Piv', Pkind'.
  cbn [h' h_v h_alg h_kdf h_iter h_salt h_iv h_kind].
  crunch_goal; reflexivity.
Qed.

(** ** The page: attempts, history, round trips and sizes *)

(** A click on "Decrypt" touches at most one entry of the attempt map,
    the one of the token's fingerprint: every other counter is left as
    it was. *)
Theorem runDecrypt_frame `{H : Host} (token pw : jsstr) (m : attempts_map) (k : jsstr) :
  (forall t fp, fingerprintFromToken token = (t, inr fp) -> fp <> k) ->
  run_attempts (runDecrypt token pw m) !! k = m !! k.
Proof.
  intros Hk. unfold runDecrypt, run_attempts.
  destruct (bool_decide (trim token = [])); [reflexivity|].
  destruct (bool_decide (trim pw = [])); [reflexivity|].
  destruct (decryptToken (trim token) pw) as [t [e|res]] eqn:Hrun.
  - destruct (fingerprintFromToken (trim token)) as [t' [e'|fp]] eqn:Hfp; [reflexivity|].
    rewrite fingerprint_trim in Hfp. cbn [snd]. apply lookup_insert_ne. exact (Hk _ _ Hfp).
  - apply fingerprint_of_decrypt in Hrun. rewrite fingerprint_trim in Hrun.
    destruct (maxAttempts <=? _)%Z; [reflexivity|]. cbn [snd].
    apply lookup_insert_ne. exact (Hk _ _ Hrun).
Qed.

(** Attempt counters never go negative, and the "Attempts left" a
    wrong key reports is between 0 and 4. *)
Theorem runDecrypt_counters `{H : Host} (token pw : jsstr) (m : attempts_map) :
  map_Forall (fun _ v => (0 <= v)%Z) m ->
  map_Forall (fun _ v => (0 <= v)%Z) (run_attempts (runDecrypt token pw m))
  /\ (forall left, run_outcome (runDecrypt token pw m) = WrongKey left -> (0 <= left <= 4)%Z).
Proof.
  intros Hm.
  assert (Hu : forall fp, (0 <= used_attempts m fp)%Z).
  { intros fp. unfold used_attempts. destruct (m !! fp) eqn:E; [|lia].
    exact (Hm _ _ E). }
  unfold runDecrypt, run_attempts, run_outcome.
  destruct (bool_decide (trim token = [])); [split; [exact Hm|discriminate]|].
  destruct (bool_decide (trim pw = [])); [split; [exact Hm|discriminate]|].
  destruct (decryptToken (trim token) pw) as [t [e|res]].
  - destruct (fingerprintFromToken (trim token)) as [t' [e'|fp]];
      [split; [exact Hm|discriminate]|].
    cbn [fst snd]. split.
    + apply map_Forall_insert_2; [specialize (Hu fp); lia|exact Hm].
    + intros left Hl. injection Hl as <-. specialize (Hu fp). unfold maxAttempts. lia.
  - destruct (maxAttempts <=? _)%Z; cbn [fst snd].
    + split; [exact Hm|discriminate].
    + split; [apply map_Forall_insert_2; [lia|exact Hm]|].
      intros left Hl. destruct res; discriminate Hl.
Qed.

Lemma firstn_app_firstn {A} (n : nat) (l r : list A) :
  firstn n (l ++ firstn n r) = firstn n (l ++ r).
Proof.
  rewrite !firstn_app, firstn_firstn. f_equal. f_equal. lia.
Qed.

(** A run of [pushHistory] calls keeps the 20 newest items, newest
    first: pushing [items] (oldest first) onto [history] gives the first
    20 of [rev items ++ history], so the stored history never holds more
    than 20 items once something has been pushed. *)
Theorem pushAll_window (items history : list HistoryItem) :
  items <> [] ->
  pushAll items history = firstn 20 (rev items ++ history)
  /\ (length (pushAll items history) <= 20)%nat.
Proof.
  intros Hne.
  assert (Hgen : forall xs h, pushAll xs (firstn 20 h) = firstn 20 (rev xs ++ h)).
  { induction xs as [|x xs IH]; intros h; [reflexivity|].
    cbn [pushAll rev]. unfold pushHistory.
    pose proof (firstn_app_firstn 20 [x] h) as E. cbn [app] in E.
    rewrite E, IH, <- app_assoc.
    reflexivity. }
  assert (Heq : pushAll items history = firstn 20 (rev items ++ history)).
  { destruct items as [|x xs]; [contradiction|].
    cbn [pushAll rev]. unfold pushHistory. rewrite Hgen, <- app_assoc. reflexivity. }
  split; [exact Heq|]. rewrite Heq, length_firstn. lia.
Qed.

(** The page's own round trip for text: a click on "Encrypt" that
    succeeds records the token's fingerprint in a new history item
    (kind text, ok, the trimmed note), and a later "Decrypt" of that
    token with the same secret shows the text again (its UTF-8
    encoding decoded) and resets the counter, as long as the
    fingerprint is not locked. *)
Theorem page_text_roundtrip `{H : Host} (plainText encPassword encNote : jsstr)
    (salt iv : bytes) (createdAt id : jsstr) (ts : Z) (history : list HistoryItem)
    (t : list cev) (token : jsstr) (history' : list HistoryItem) (m : attempts_map) :
  header_roundtrip -> gcm_roundtrip ->
  runEncryptText plainText encPassword encNote salt iv createdAt id ts history
    = (t, Encrypted token, history') ->
  exists fp, fingerprintFromToken token = ([EvDigest], inr fp)
  /\ history' = pushHistory (mkItem id ts ActEncrypt KText fp None None
                               (trimmed_note (Some encNote)) true) history
  /\ ((used_attempts m fp < maxAttempts)%Z ->
      runDecrypt token encPassword m
      = ([EvImportKey; EvDeriveKey 220000; EvDecrypt; EvDigest],
         ShowText (utf8Decode (utf8Encode plainText)), <[fp := 0%Z]> m)).
Proof.
  intros HR HG Hrun. unfold runEncryptText in Hrun.
  destruct (bool_decide (trim plainText = [])); [discriminate|].
  destruct (bool_decide (trim encPassword = [])) eqn:Epw; [discriminate|].
  apply bool_decide_eq_false in Epw.
  destruct (encryptText plainText _ salt iv createdAt) as [t0 [e|[[tok hdr] fp]]] eqn:E;
    [discriminate|].
  injection Hrun as -> -> <-.
  destruct (encryptText_inr _ _ _ _ _ _ _ _ _ E) as (key & Hkey & Hhdr & Htok & Hfp & _).
  cbn [password iterations note] in *.
  change (clamp_iterations None 220000) with 220000%Z in *.
  exists fp. split; [|split].
  - rewrite Htok, fingerprint_built, Hfp. reflexivity.
  - rewrite Hhdr. reflexivity.
  - intros Hused.
    destruct (built_shape hdr (gcm_encrypt key iv (utf8Encode plainText))) as (Htrim & _).
    rewrite <- Htok in Htrim.
    pose proof (decrypt_built hdr encPassword salt iv (utf8Encode plainText) key HR HG)
      as Hdec.
    rewrite Hhdr in Hdec. cbn [h_v h_alg h_kdf h_salt h_iv h_iter h_kind] in Hdec.
    specialize (Hdec eq_refl eq_refl eq_refl eq_refl eq_refl (clamp_in_range None 220000) Hkey).
    rewrite <- Hhdr, <- Htok in Hdec.
    rewrite (bool_decide_eq_true_2 (js "text" = js "text") eq_refl) in Hdec.
    rewrite <- Hfp in Hdec. rewrite <- Htrim in Hdec.
    rewrite (runDecrypt_inr token encPassword m _ _ Epw Hdec). cbn [res_fingerprint].
    destruct (Z.leb_spec maxAttempts (used_attempts m fp)); [lia|]. reflexivity.
Qed.

(** The same for a file: the history item records the file's name and
    size, and decrypting the token with the same secret shows the file's
    exact bytes. *)
Theorem page_file_roundtrip `{H : Host} (file : File) (encPassword encNote : jsstr)
    (salt iv : bytes) (createdAt id : jsstr) (ts : Z) (history : list HistoryItem)
    (t : list cev) (token : jsstr) (history' : list HistoryItem) (m : attempts_map) :
  header_roundtrip -> gcm_roundtrip ->
  runEncryptFile (Some file) encPassword encNote salt iv createdAt id ts history
    = (t, Encrypted token, history') ->
  exists fp hj, fingerprintFromToken token = ([EvDigest], inr fp)
  /\ history' = pushHistory (mkItem id ts ActEncrypt KFile fp (Some (f_name file))
                               (Some (Z.of_nat (length (f_content file))))
                               (trimmed_note (Some encNote)) true) history
  /\ ((used_attempts m fp < maxAttempts)%Z ->
      runDecrypt token encPassword m
      = ([EvImportKey; EvDeriveKey 260000; EvDecrypt; EvDigest],
         ShowFile hj (f_content file), <[fp := 0%Z]> m)).
Proof.
  intros HR HG Hrun. unfold runEncryptFile in Hrun.
  destruct (bool_decide (trim encPassword = [])) eqn:Epw; [discriminate|].
  apply bool_decide_eq_false in Epw.
  destruct (encryptFile file _ salt iv createdAt) as [t0 [e|[[tok hdr] fp]]] eqn:E;
    [discriminate|].
  injection Hrun as -> -> <-.
  destruct (encryptFile_inr _ _ _ _ _ _ _ _ _ E) as (key & Hkey & Hhdr & Htok & Hfp & _).
  cbn [password iterations note] in *.
  change (clamp_iterations None 260000) with 260000%Z in *.
  exists fp, (header_json hdr). split; [|split].
  - rewrite Htok, fingerprint_built, Hfp. reflexivity.
  - rewrite Hhdr. reflexivity.
  - intros Hused.
    destruct (built_shape hdr (gcm_encrypt key iv (f_content file))) as (Htrim & _).
    rewrite <- Htok in Htrim.
    pose proof (decrypt_built hdr encPassword salt iv (f_content file) key HR HG)
      as Hdec.
    rewrite Hhdr in Hdec. cbn [h_v h_alg h_kdf h_salt h_iv h_iter h_kind] in Hdec.
    specialize (Hdec eq_refl eq_refl eq_refl eq_refl eq_refl (clamp_in_range None 260000) Hkey).
    rewrite <- Hhdr, <- Htok in Hdec.
    rewrite (bool_decide_eq_false_2 (js "file" = js "text")) in Hdec by discriminate.
    rewrite <- Hfp in Hdec. rewrite <- Htrim in Hdec.
    rewrite (runDecrypt_inr token encPassword m _ _ Epw Hdec). cbn [res_fingerprint shown].
    destruct (Z.leb_spec maxAttempts (used_attempts m fp)); [lia|]. reflexivity.
Qed.

(** [fmtBytes] picks the unit by powers of 1024 and stops at GB: a size
    below 1024 (negative ones included) is written as an integer with
    [B]; otherwise it is divided by the largest of 1024, 1024^2, 1024^3
    not above it and written with one decimal and [KB], [MB] or [GB];
    sizes of a TB and more stay in GB. *)
Theorem fmtBytes_units (n : Z) :
  ((n < 1024)%Z -> fmtBytes (Some n) = toFixed0 n ++ js " B")
  /\ ((1024 <= n < 1024 ^ 2)%Z -> fmtBytes (Some n) = toFixed1 n 1024 ++ js " KB")
  /\ ((1024 ^ 2 <= n < 1024 ^ 3)%Z -> fmtBytes (Some n) = toFixed1 n (1024 ^ 2) ++ js " MB")
  /\ ((1024 ^ 3 <= n)%Z -> fmtBytes (Some n) = toFixed1 n (1024 ^ 3) ++ js " GB").
Proof.
  unfold fmtBytes. cbn [length units unit_loop Nat.sub Nat.ltb Nat.leb].
  change (1024 ^ Z.of_nat 1)%Z with 1024%Z.
  change (1024 ^ Z.of_nat 2)%Z with (1024 ^ 2)%Z.
  change (1024 ^ Z.of_nat 3)%Z with (1024 ^ 3)%Z.
  change (1024 ^ Z.of_nat 4)%Z with (1024 ^ 4)%Z.
  repeat split; intros Hn;
    repeat match goal with |- context [(?a <=? ?b)%Z] => destruct (Z.leb_spec a b) end;
    cbn [andb Nat.eqb nth]; first [reflexivity | lia].
Qed.

(** Rounding to one decimal can print a value the loop did not move to
    the next unit: sizes from 1048525 to 1048575 bytes print as
    [1024.0 KB], and sizes from 1073689396 to 1073741823 bytes as
    [1024.0 MB]. *)
Theorem fmtBytes_rounds_to_1024 (n : Z) :
  ((1048525 <= n < 1048576)%Z -> fmtBytes (Some n) = js "1024.0 KB")
  /\ ((1073689396 <= n < 1073741824)%Z -> fmtBytes (Some n) = js "1024.0 MB").
Proof.
  destruct (fmtBytes_units n) as (_ & HK & HM & _). split; intros Hn.
  - rewrite HK by (cbn; lia). unfold toFixed1.
    replace ((20 * n + 1024) / (2 * 1024))%Z with 10240%Z by arith. reflexivity.
  - rewrite HM by (cbn; lia). unfold toFixed1.
    replace ((20 * n + 1024 ^ 2) / (2 * 1024 ^ 2))%Z with 10240%Z by (cbn; arith).
    reflexivity.
Qed.

Section EncryptErrors.
Context `{Host}.

Lemma encryptText_inl text opts salt iv createdAt t e :
  encryptText text opts salt iv createdAt = (t, inl e) -> e = ErrKeyDerivation.
Proof.
  unfold encryptText, deriveKey, sha256Hex, emit, lift.
  destruct (pbkdf2 _ _ _); cbn [bind ret throw app]; intros Heq; injection Heq; auto;
    discriminate.
Qed.

Lemma encryptFile_inl file opts salt iv createdAt t e :
  encryptFile file opts salt iv createdAt = (t, inl e) ->
  e = ErrKeyDerivation \/ (e = ErrFileRead /\ f_readable file = false).
Proof.
  unfold encryptFile, arrayBuffer, deriveKey, sha256Hex, emit, lift.
  destruct (pbkdf2 _ _ _); [destruct (f_readable file)|]; cbn [bind ret throw app];
    intros Heq; injection Heq; auto; discriminate.
Qed.

End EncryptErrors.

(** The encrypt buttons and the history: a click refused for a blank
    text, a missing file or a blank secret does no cryptographic work
    and leaves the history alone; any other click pushes exactly one
    encrypt item, which is ok and comes with the token when encryption
    succeeded, and otherwise has fingerprint ["n/a"] and comes with the
    error encryption threw: the key-derivation error, or, for a file
    that cannot be read, the read error; encryption throws no other. *)
Theorem runEncrypt_history `{H : Host} (plainText : jsstr) (fileToEncrypt : option File)
    (encPassword encNote : jsstr) (salt iv : bytes) (createdAt id : jsstr) (ts : Z)
    (history : list HistoryItem) :
  let rt := runEncryptText plainText encPassword encNote salt iv createdAt id ts history in
  let rf := runEncryptFile fileToEncrypt encPassword encNote salt iv createdAt id ts history in
  (((trim plainText = [] \/ trim encPassword = [])
    /\ fst (fst rt) = [] /\ snd rt = history)
   \/ (exists item, snd rt = pushHistory item history
       /\ hi_action item = ActEncrypt /\ hi_kind item = KText
       /\ ((hi_ok item = true /\ exists token, snd (fst rt) = Encrypted token)
           \/ (hi_ok item = false /\ hi_fingerprint item = js "n/a"
               /\ snd (fst rt) = EncryptFailed ErrKeyDerivation))))
  /\ (((fileToEncrypt = None \/ trim encPassword = [])
       /\ fst (fst rf) = [] /\ snd rf = history)
      \/ (exists item, snd rf = pushHistory item history
          /\ hi_action item = ActEncrypt /\ hi_kind item = KFile
          /\ ((hi_ok item = true /\ exists token, snd (fst rf) = Encrypted token)
              \/ (hi_ok item = false /\ hi_fingerprint item = js "n/a"
                  /\ (snd (fst rf) = EncryptFailed ErrKeyDerivation
                      \/ (snd (fst rf) = EncryptFailed ErrFileRead
                          /\ exists file, fileToEncrypt = Some file
                                          /\ f_readable file = false)))))).
Proof.
  intros rt rf. split.
  - subst rt. unfold runEncryptText.
    destruct (bool_decide (trim plainText = [])) eqn:E1;
      [apply bool_decide_eq_true in E1; left; auto 6|].
    destruct (bool_decide (trim encPassword = [])) eqn:E2;
      [apply bool_decide_eq_true in E2; left; auto 6|].
    right. destruct (encryptText _ _ _ _ _) as [t [e|[[tok hdr] fp]]] eqn:E.
    + apply encryptText_inl in E as ->.
      eexists; split; [reflexivity|]. cbn.
      split; [reflexivity|split; [reflexivity|right; repeat split]].
    + eexists; split; [reflexivity|]. cbn.
      split; [reflexivity|split; [reflexivity|left; split; [reflexivity|eexists; reflexivity]]].
  - subst rf. unfold runEncryptFile.
    destruct fileToEncrypt as [file|]; [|left; auto 6].
    destruct (bool_decide (trim encPassword = [])) eqn:E2;
      [apply bool_decide_eq_true in E2; left; auto 6|].
    right. destruct (encryptFile _ _ _ _ _) as [t [e|[[tok hdr] fp]]] eqn:E.
    + apply encryptFile_inl in E as [->|[-> Er]].
      * eexists; split; [reflexivity|]. cbn.
        split; [reflexivity|split; [reflexivity|right; repeat split; left; reflexivity]].
      * eexists; split; [reflexivity|]. cbn.
        split; [reflexivity|split; [reflexivity|right; repeat split; right]].
        split; [reflexivity|]. exists file. split; [reflexivity|exact Er].
    + eexists; split; [reflexivity|]. cbn.
      split; [reflexivity|split; [reflexivity|left; split; [reflexivity|eexists; reflexivity]]].
Qed.

(* ================================================================== *)
(** * The further properties on concrete inputs *)

Lemma fromB64Url_length_1_mod_4_witness :
  (length (js "AAAAA") mod 4 = 1)%nat /\ fromB64Url (js "AAAAA") = None.
Proof.
  split; [reflexivity|].
  refine (fromB64Url_length_1_mod_4 (js "AAAAA") _). reflexivity.
Defined.

Lemma encryptText_token_fingerprint_witness :
  trim Samples.text_token = Samples.text_token
  /\ startsWith Samples.text_token PREFIX = true
  /\ length (str_split DOT Samples.text_token) = 3%nat
  /\ fingerprintFromToken (H := ToyHost.host) Samples.text_token
     = ([EvDigest], inr Samples.text_fp).
Proof.
  refine (encryptText_token_fingerprint (H := ToyHost.host) Samples.hello Samples.opts
            Samples.salt Samples.iv Samples.createdAt (fst Samples.text_run)
            Samples.text_token Samples.text_header Samples.text_fp _).
  vm_compute. reflexivity.
Defined.

Lemma encryptFile_token_fingerprint_witness :
  trim Samples.file_token = Samples.file_token
  /\ startsWith Samples.file_token PREFIX = true
  /\ length (str_split DOT Samples.file_token) = 3%nat
  /\ fingerprintFromToken (H := ToyHost.host) Samples.file_token
     = ([EvDigest], inr Samples.file_fp).
Proof.
  refine (encryptFile_token_fingerprint (H := ToyHost.host) Samples.file Samples.opts
            Samples.salt Samples.iv Samples.createdAt (fst Samples.file_run)
            Samples.file_token Samples.file_header Samples.file_fp _).
  vm_compute. reflexivity.
Defined.

Lemma encrypt_note_trimmed_witness :
  let hdr := Samples.out_header Samples.noted_run in
  (forall s, prop_of (header_json hdr) "note" = Some (JStr s)
             <-> exists s0, note Samples.noted_opts = Some s0 /\ trim s0 = s /\ s <> [])
  /\ (prop_of (header_json hdr) "note" = None
      <-> forall s0, note Samples.noted_opts = Some s0 -> trim s0 = [])
  /\ (forall s, prop_of (header_json hdr) "note" = Some (JStr s) -> trim s = s).
Proof.
  refine (encrypt_note_trimmed (H := ToyHost.host) Samples.hello Samples.file
            Samples.noted_opts Samples.salt Samples.iv Samples.createdAt
            (fst Samples.noted_run) (Samples.out_token Samples.noted_run)
            (Samples.out_header Samples.noted_run) (Samples.out_fp Samples.noted_run) _).
  left. vm_compute. reflexivity.
Defined.

(** [iter] written as the string ["220000"]: WebCrypto converts it, and
    the token decrypts with 220000 PBKDF2 iterations. *)
Lemma decrypt_success_shape_witness :
  let d := decryptToken (H := ToyHost.host) Samples.iter_str_token Samples.pw in
  let r := match snd d with inr r => r | inl _ => DText JNull [] [] end in
  supported_header (res_header r) = true
  /\ (exists n, iterations_param (H := ToyHost.host) (prop_of (res_header r) "iter") = Some n
                /\ (0 <= n <= 4294967295)%Z
                /\ fst d = [EvImportKey; EvDeriveKey n; EvDecrypt; EvDigest])
  /\ (is_str (prop_of (res_header r) "kind") "text" = true
      <-> exists hj text fp, r = DText hj text fp).
Proof.
  intros d r.
  refine (decrypt_success_shape (H := ToyHost.host) Samples.iter_str_token Samples.pw
            (fst d) r _).
  unfold r, d. vm_compute. reflexivity.
Defined.

(** The same token with the wrong password: PBKDF2 runs with the
    converted count 220000 and AES-GCM rejects. *)
Lemma decrypt_failure_cost_witness :
  let t := fst (decryptToken (H := ToyHost.host) Samples.iter_str_token Samples.wrong_pw) in
  (t = [] /\ (format_error ErrWrongKey = true \/ ErrWrongKey = ErrFieldType
              \/ ErrWrongKey = ErrBase64))
  \/ exists p0 p1 p2 hj,
       str_split DOT (trim Samples.iter_str_token) = [p0; p1; p2]
       /\ unpackHeader (H := ToyHost.host) p1 = ([], inr hj)
       /\ ((ErrWrongKey = ErrKeyDerivation /\ t = [EvImportKey]
            /\ iterations_param (H := ToyHost.host) (prop_of hj "iter") = None)
           \/ exists n, iterations_param (H := ToyHost.host) (prop_of hj "iter") = Some n
              /\ ((ErrWrongKey = ErrKeyDerivation /\ t = [EvImportKey; EvDeriveKey n])
                  \/ (ErrWrongKey = ErrWrongKey
                      /\ t = [EvImportKey; EvDeriveKey n; EvDecrypt]))).
Proof.
  intros t.
  refine (decrypt_failure_cost (H := ToyHost.host) Samples.iter_str_token Samples.wrong_pw
            t ErrWrongKey _).
  unfold t. vm_compute. reflexivity.
Defined.

Lemma header_metadata_unauthenticated_witness :
  let h := Samples.text_header in
  let ct := ToyHost.toy_gcm_encrypt (ToyHost.toy_utf8Encode Samples.pw ++ Samples.salt)
              Samples.iv (ToyHost.toy_utf8Encode Samples.hello) in
  let h' := {| h_v := h_v h; h_alg := h_alg h; h_kdf := h_kdf h; h_iter := h_iter h;
               h_salt := h_salt h; h_iv := h_iv h; h_createdAt := js "1999-01-01";
               h_kind := h_kind h; h_filename := Some (js "forged.txt"); h_mime := None;
               h_size := Some 7%Z; h_note := Some (js "forged") |} in
  decryptToken (H := ToyHost.host) (PREFIX ++ packHeader (H := ToyHost.host) h' ++ [DOT] ++ toB64Url ct) Samples.pw
  = let (t, r) := decryptToken (H := ToyHost.host)
                    (PREFIX ++ packHeader (H := ToyHost.host) h ++ [DOT] ++ toB64Url ct) Samples.pw in
    (t, match r with inl e => inl e | inr res => inr (with_header (header_json h') res) end).
Proof.
  exact (header_metadata_unauthenticated (H := ToyHost.host) Samples.text_header
           (ToyHost.toy_gcm_encrypt (ToyHost.toy_utf8Encode Samples.pw ++ Samples.salt)
              Samples.iv (ToyHost.toy_utf8Encode Samples.hello))
           Samples.pw (js "1999-01-01") (Some (js "forged.txt")) None (Some (js "forged"))
           (Some 7%Z) ToyHostFacts.toy_header_roundtrip).
Defined.

Lemma runDecrypt_frame_witness :
  run_attempts (runDecrypt (H := ToyHost.host) Samples.text_token Samples.wrong_pw
                  (<[js "other" := 3%Z]> ∅)) !! js "other"
  = (<[js "other" := 3%Z]> ∅ : attempts_map) !! js "other".
Proof.
  refine (runDecrypt_frame (H := ToyHost.host) Samples.text_token Samples.wrong_pw
            (<[js "other" := 3%Z]> ∅) (js "other") _).
  intros t fp E. vm_compute in E. injection E as _ <-. discriminate.
Defined.

Lemma runDecrypt_counters_witness :
  let m : attempts_map := <[js "other" := 3%Z]> ∅ in
  map_Forall (fun _ v => (0 <= v)%Z)
    (run_attempts (runDecrypt (H := ToyHost.host) Samples.text_token Samples.wrong_pw m))
  /\ (forall left, run_outcome (runDecrypt (H := ToyHost.host) Samples.text_token
                                  Samples.wrong_pw m) = WrongKey left -> (0 <= left <= 4)%Z).
Proof.
  refine (runDecrypt_counters (H := ToyHost.host) Samples.text_token Samples.wrong_pw
            (<[js "other" := 3%Z]> ∅) _).
  apply (bool_decide_unpack _). vm_compute. reflexivity.
Defined.

Lemma pushAll_window_witness :
  pushAll [Samples.item_a; Samples.item_b] [] = firstn 20 (rev [Samples.item_a; Samples.item_b] ++ [])
  /\ (length (pushAll [Samples.item_a; Samples.item_b] []) <= 20)%nat.
Proof.
  refine (pushAll_window [Samples.item_a; Samples.item_b] [] _). discriminate.
Defined.

Lemma page_text_roundtrip_witness :
  exists fp, fingerprintFromToken (H := ToyHost.host) (Samples.enc_token Samples.page_text_run)
             = ([EvDigest], inr fp)
  /\ snd Samples.page_text_run
     = pushHistory (mkItem Samples.page_id Samples.page_ts ActEncrypt KText fp None None
                      (trimmed_note (Some Samples.note_in)) true) []
  /\ ((used_attempts ∅ fp < maxAttempts)%Z ->
      runDecrypt (H := ToyHost.host) (Samples.enc_token Samples.page_text_run) Samples.pw ∅
      = ([EvImportKey; EvDeriveKey 220000; EvDecrypt; EvDigest],
         ShowText (@utf8Decode ToyHost.host (@utf8Encode ToyHost.host Samples.hello)),
         <[fp := 0%Z]> ∅)).
Proof.
  refine (page_text_roundtrip (H := ToyHost.host) Samples.hello Samples.pw Samples.note_in
            Samples.salt Samples.iv Samples.createdAt Samples.page_id Samples.page_ts []
            (fst (fst Samples.page_text_run)) (Samples.enc_token Samples.page_text_run)
            (snd Samples.page_text_run) ∅
            ToyHostFacts.toy_header_roundtrip ToyHostFacts.toy_gcm_roundtrip _).
  vm_compute. reflexivity.
Defined.

Lemma page_file_roundtrip_witness :
  exists fp hj, fingerprintFromToken (H := ToyHost.host) (Samples.enc_token Samples.page_file_run)
                = ([EvDigest], inr fp)
  /\ snd Samples.page_file_run
     = pushHistory (mkItem Samples.page_id Samples.page_ts ActEncrypt KFile fp
                      (Some (f_name Samples.file))
                      (Some (Z.of_nat (length (f_content Samples.file))))
                      (trimmed_note (Some Samples.note_in)) true) []
  /\ ((used_attempts ∅ fp < maxAttempts)%Z ->
      runDecrypt (H := ToyHost.host) (Samples.enc_token Samples.page_file_run) Samples.pw ∅
      = ([EvImportKey; EvDeriveKey 260000; EvDecrypt; EvDigest],
         ShowFile hj (f_content Samples.file), <[fp := 0%Z]> ∅)).
Proof.
  refine (page_file_roundtrip (H := ToyHost.host) Samples.file Samples.pw Samples.note_in
            Samples.salt Samples.iv Samples.createdAt Samples.page_id Samples.page_ts []
            (fst (fst Samples.page_file_run)) (Samples.enc_token Samples.page_file_run)
            (snd Samples.page_file_run) ∅
            ToyHostFacts.toy_header_roundtrip ToyHostFacts.toy_gcm_roundtrip _).
  vm_compute. reflexivity.
Defined.
